(** * Wildberries MCP server: the marketplace client and its two transports

    A shallow embedding of [wb-client.js] (class [WBClient]), of the stdio
    tool handler of [src/index.js] and of the JSON-RPC handler and the
    [POST /mcp] route of the HTTP server.

    Conventions of the embedding.
    - JSON numbers that the code reads (tool arguments, catalogue ids, zone
      codes, amounts in kopecks) are integers, [Z].  A price, [k / 100] in
      the code, is named by the rational [k # 100]: it stands for the
      double nearest to it, which [double] gives, and the arithmetic of the
      discount is done on those doubles, in IEEE binary64.
    - [undefined] and [null] are [None]; a record field of type [option _]
      is a property that may be missing.
    - The browser, the rendered pages and the remote endpoints are the
      [World]: every method is a function of the world it runs in.
    - [async] methods are state transformers over the client object
      ([isInitialized], [dest]) that either return or throw. *)

From Stdlib Require Import ZArith QArith Ascii String Lia.
From Stdlib Require Import PrimFloat FloatOps SpecFloat.
From stdpp Require Import gmap strings list pretty.

Local Open Scope string_scope.
Local Open Scope list_scope.
Local Open Scope Z_scope.

(** ** JavaScript primitives *)

Module JS.

(** Truthiness of a number, of a string and of a possibly missing value. *)
Definition truthy_num (n : Z) : bool := negb (n =? 0).
Definition truthy_rat (q : Q) : bool := negb (Qnum q =? 0).
Definition truthy_str (s : string) : bool := negb (String.eqb s "").

Definition truthy_opt {A} (t : A → bool) (o : option A) : bool :=
  match o with Some a => t a | None => false end.

(** [a || d] for an optional number and for an optional string. *)
Definition or_num (a : option Z) (d : Z) : Z :=
  match a with Some n => if truthy_num n then n else d | None => d end.
Definition or_str (a : option string) (d : string) : string :=
  match a with Some s => if truthy_str s then s else d | None => d end.

(** [Number.prototype.toString] on an integer, and the rendering of a
    possibly missing number inside a template literal. *)
Definition Number_toString (n : Z) : string := pretty n.
Definition template_num (o : option Z) : string :=
  match o with Some n => Number_toString n | None => "undefined" end.

(** [s.padStart(n, c)] for a one-character filler. *)
Fixpoint replicate_char (n : nat) (c : ascii) : string :=
  match n with O => "" | S k => String c (replicate_char k c) end.
Definition padStart (n : nat) (c : ascii) (s : string) : string :=
  replicate_char (n - String.length s) c +:+ s.

(** [arr.join(sep)]. *)
Fixpoint join (sep : string) (l : list string) : string :=
  match l with
  | [] => ""
  | [s] => s
  | s :: rest => s +:+ sep +:+ join sep rest
  end.

(** [encodeURIComponent] on the UTF-8 bytes of a string: the unreserved
    marks and the ASCII letters and digits are kept, every other byte
    becomes [%XX]. *)
Definition hex_digit (n : N) : ascii :=
  ascii_of_N (if (n <? 10)%N then 48 + n else 55 + n)%N.
Definition unreserved (c : ascii) : bool :=
  let n := N_of_ascii c in
  ((65 <=? n) && (n <=? 90) || (97 <=? n) && (n <=? 122)
   || (48 <=? n) && (n <=? 57)
   || bool_decide (n ∈ [45; 95; 46; 33; 126; 42; 39; 40; 41]))%N.
Fixpoint encodeURIComponent (s : string) : string :=
  match s with
  | EmptyString => ""
  | String c rest =>
      if unreserved c then String c (encodeURIComponent rest)
      else
        let n := N_of_ascii c in
        String "%" (String (hex_digit (n / 16)) (String (hex_digit (n mod 16))
          (encodeURIComponent rest)))
  end.

(** [Math.min] and [Math.floor(a / b)] for a positive [b]. *)
Definition Math_min (a b : Z) : Z := Z.min a b.
Definition Math_floor_div (a b : Z) : Z := a `div` b.

(** The double of an integer, and the double that a rational names: the
    quotient of the doubles of its numerator and denominator, which is the
    double nearest to it when both are held exactly (below 2^53). *)
Definition Z2F (z : Z) : float :=
  SF2Prim (binary_normalize prec emax z 0 false).
Definition double (q : Q) : float :=
  (Z2F (Qnum q) / Z2F (Z.pos (Qden q)))%float.

(** [Math.round]: a double that is not finite, a zero and a double without
    a fractional part are returned as they are; otherwise the nearest
    integer, a tie going up, worked out on the exact value [m * 2^e] of the
    double, and [-0] when that is 0 for a double below 0. *)
Definition Math_round (x : float) : float :=
  match Prim2SF x with
  | S754_finite s m e =>
      if 0 <=? e then x
      else
        let v := if s then Z.neg m else Z.pos m in
        let n := (2 * v + 2 ^ (- e)) `div` 2 ^ (1 - e) in
        if s && (n =? 0) then (- 0)%float else Z2F n
  | _ => x
  end.

(** [arr.slice(0, end)]: a negative [end] counts from the end of the
    array. *)
Definition slice0 {A} (l : list A) (e : Z) : list A :=
  let len := Z.of_nat (length l) in
  let final := if e <? 0 then Z.max (len + e) 0 else Z.min e len in
  take (Z.to_nat final) l.

(** Text of the rendered document: a sequence of UTF-16 code units. *)
Definition text := list N.

Definition isDigit (c : N) : bool := ((48 <=? c) && (c <=? 57))%N.
Definition isLineTerminator (c : N) : bool :=
  bool_decide (c ∈ [10; 13; 8232; 8233]%N).
(** The class [\s], which is also what [trim] removes. *)
Definition isSpace (c : N) : bool :=
  (bool_decide (c ∈ [9; 11; 12; 32; 160; 65279; 5760; 8239; 8287; 12288])
   || (8192 <=? c) && (c <=? 8202) || isLineTerminator c)%N.

Fixpoint trimStart (s : text) : text :=
  match s with
  | c :: rest => if isSpace c then trimStart rest else s
  | [] => []
  end.
Definition trim (s : text) : text := reverse (trimStart (reverse (trimStart s))).

(** [s.match] with the global pattern "a digit, then digits and white space
    as long as they last": the maximal such runs, from left to right; [cur]
    is the run being read.  The empty list stands for the [null] of no
    match. *)
Fixpoint digit_runs (s : text) (cur : option text) : list text :=
  match s with
  | [] => match cur with Some m => [m] | None => [] end
  | c :: rest =>
      match cur with
      | None =>
          if isDigit c then digit_runs rest (Some [c]) else digit_runs rest None
      | Some m =>
          if isDigit c || isSpace c then digit_runs rest (Some (m ++ [c]))
          else m :: digit_runs rest None
      end
  end.

(** [m.replace(/\s/g, '')]. *)
Definition remove_spaces (m : text) : text := filter (λ c, isSpace c = false) m.

(** [parseInt] on a run of decimal digits. *)
Definition parseInt (m : text) : Z :=
  fold_left (λ acc c, acc * 10 + (Z.of_N c - 48)) m 0.

(** [s.replace] of the first "white space, slash, rest of the line" by the
    empty string: the first slash goes, with the white space before it and
    the rest of its line; [ws] is the white space read since the last other
    character. *)
Fixpoint drop_line (s : text) : text :=
  match s with
  | [] => []
  | c :: rest => if isLineTerminator c then s else drop_line rest
  end.
Fixpoint cut_at_slash (s ws : text) : text :=
  match s with
  | [] => ws
  | c :: rest =>
      if (c =? 47)%N then drop_line rest
      else if isSpace c then cut_at_slash rest (ws ++ [c])
      else ws ++ c :: cut_at_slash rest []
  end.

End JS.

Import JS.

(** ** Data read from the marketplace *)

(** A JSON value that the client hands on without looking at it. *)
#[local] Set Warnings "-register-all".
Inductive Json :=
  | JNull
  | JBool (b : bool)
  | JNum (q : Q)
  | JStr (s : string)
  | JArr (l : list Json)
  | JObj (l : list (string * Json)).

(** The price/stock descriptor ([cards/v4/list] and [cards/v4/detail]), the
    content descriptor ([card.json]) and the geo answer, with the properties
    the client reads.  Amounts are in kopecks. *)
Module Api.

Record Price := { basic : option Z; product : option Z }.

Record Stock := {
  wh : option Json; qty : option Json;
  st_time1 : option Z; st_time2 : option Z }.

Record Size := {
  s_name : option string; optionId : option Json;
  price : option Price; stocks : option (list Stock) }.

Record Product := {
  id : option Z;
  name : option Json; brand : option Json; brandId : option Json;
  supplier : option Json; supplierId : option Json;
  supplierRating : option Json; rating : option Json;
  feedbacks : option Json; feedbackPoints : option Json;
  colors : option Json; pics : option Json;
  sizes : option (list Size);
  totalQuantity : option Json;
  time1 : option Z; time2 : option Z }.

Record CardOption := { o_name : option Json; o_value : option Json }.

(** A response object: any endpoint may answer with any of the properties. *)
Record Body := {
  products : option (list Product);
  description : option string;
  options : option (list CardOption);
  address : option string;
  destinations : option (list Z) }.

(** [s.price?.product]. *)
Definition size_product (s : Size) : option Z := price s ≫= product.

(** [p.sizes?.[0]?.price?.basic] and [p.sizes?.[0]?.price?.product]. *)
Definition first_price (p : Product) : option Price :=
  sz ← (sizes p ≫= head); price sz.
Definition first_basic (p : Product) : option Z := first_price p ≫= basic.
Definition first_product (p : Product) : option Z := first_price p ≫= product.

(** [data?.products?.[0]]. *)
Definition first_item (data : option Body) : option Product :=
  ps ← (data ≫= products); head ps.

End Api.

(** Kopecks to roubles: [k / 100].  The code holds a double, the quotient
    of the doubles of [k] and 100; the rational [k # 100] is its name here,
    and [double (div100 k)] is that double.  The name is 0 exactly when the
    double is, so the truthiness tests of the code read the name; whatever
    the code computes from a price is computed on the double. *)
Definition div100 (k : Z) : Q := (inject_Z k / 100)%Q.

(** [k ? k / 100 : null] on a possibly missing amount. *)
Definition roubles (o : option Z) : option Q :=
  match o with
  | Some k => if truthy_num k then Some (div100 k) else None
  | None => None
  end.

(** A product card of the rendered results page, as the selectors of
    [search] see it: the attribute, the link, the image, and the text
    content of the name, brand and price nodes that exist. *)
Record Card := {
  data_nm_id : option string;
  href : option string;
  nameText : option text;
  brandText : option text;
  imgSrc : option string;
  walletPrice : option text;
  finalPrice : option text;
  anyPrice : option text }.

(** ** The world the client runs in *)

Record Error := { message : string }.

Record Rendered := {
  (* a [.product-card] shows up within the 30 s of [waitForSelector] *)
  cardAppears : bool;
  (* [document.querySelectorAll('.product-card')] after the settle delay *)
  cards : list Card;
  (* text of the buttons under [class*="dropdown-filter"] *)
  filterButtons : list text }.

Inductive Navigation := NavError (e : Error) | NavOk (p : Rendered).

(** [fetch(url)] inside the page: a rejection (network, [HTTP status]) or
    the parsed JSON.  [Resolved None] is the body [null], [Resolved_falsy]
    a body that is falsy without being [null] (0, [false], the empty
    string), and [Resolved (Some body)] a truthy one: an object with the
    properties the client reads. *)
Inductive Fetched :=
  | Rejected (e : Error)
  | Resolved (body : option Api.Body)
  | Resolved_falsy.

Record World := {
  (* [chromium.launch()]: the error when it rejects *)
  launch : option Error;
  (* what follows the launch in [init], from [newContext] to the warm-up
     [goto] of the home page: the error when one of these rejects *)
  warm_up : option Error;
  (* [page.goto(url)] and what is on the page then *)
  goto : string → Navigation;
  (* [fetch(url)] inside the page *)
  fetch : string → Fetched }.

(** What [apiRequest] resolves to. *)
Inductive Answer := Null | Falsy | Truthy (body : Api.Body).

(** [a?.] for an answer: a property of [null] or of a falsy value is
    [undefined]. *)
Definition optional (a : Answer) : option Api.Body :=
  match a with Truthy body => Some body | _ => None end.

(** ** The client object and its methods *)

Inductive Event := Launched | Navigated (url : string) | Requested (url : string).

(** [browser], [context] and [page] are left out: only [close] reads one
    of them, and what it does to the fields kept here is the same whether
    it is set or not.  [history] is a history variable: what the client
    did so far, oldest first; [Launched] is a [chromium.launch()] that
    resolved. *)
Record WBClient := {
  isInitialized : bool;
  dest : string;
  history : list Event }.

Definition constructor : WBClient :=
  {| isInitialized := false; dest := "-1255987"; history := [] |}.

Inductive Outcome (A : Type) := Return (a : A) | Throw (e : Error).
Arguments Return {A} a.
Arguments Throw {A} e.

Definition M (A : Type) : Type := WBClient → Outcome A * WBClient.

Definition ret {A} (a : A) : M A := λ c, (Return a, c).
Definition throw {A} (e : Error) : M A := λ c, (Throw e, c).
Definition bind {A B} (m : M A) (k : A → M B) : M B :=
  λ c, match m c with
       | (Return a, c') => k a c'
       | (Throw e, c') => (Throw e, c')
       end.
(** [try { m } catch (e) { h e }]. *)
Definition try_catch {A} (m : M A) (h : Error → M A) : M A :=
  λ c, match m c with
       | (Return a, c') => (Return a, c')
       | (Throw e, c') => h e c'
       end.

Declare Scope js_scope.
Delimit Scope js_scope with js.
Notation "'let!' x := m 'in' k" := (bind m (λ x, k))
  (at level 10, x name, m at level 100, k at level 200) : js_scope.
Notation "m ;;; k" := (bind m (λ _, k))
  (at level 100, k at level 200, right associativity) : js_scope.
Local Open Scope js_scope.

Definition record (e : Event) : M unit :=
  λ c, (Return (), {| isInitialized := isInitialized c; dest := dest c;
                      history := history c ++ [e] |}).
Definition read_dest : M string := λ c, (Return (dest c), c).
Definition write_dest (d : string) : M unit :=
  λ c, (Return (), {| isInitialized := isInitialized c; dest := d;
                      history := history c |}).

Definition init (w : World) : M unit :=
  λ c, if isInitialized c then (Return (), c)
       else match launch w with
            | Some e => (Throw e, c)
            | None =>
                match warm_up w with
                | Some e =>
                    (Throw e, {| isInitialized := false; dest := dest c;
                                 history := history c ++ [Launched] |})
                | None =>
                    (Return (), {| isInitialized := true; dest := dest c;
                                   history := history c ++ [Launched] |})
                end
            end.

Definition apiRequest (w : World) (url : string) : M Answer :=
  init w ;;;
  record (Requested url) ;;;
  match fetch w url with
  | Rejected e => throw e
  | Resolved (Some body) => ret (Truthy body)
  | Resolved None => ret Null
  | Resolved_falsy => ret Falsy
  end.

(** [page.goto(url, ...)]. *)
Definition page_goto (w : World) (url : string) : M Rendered :=
  record (Navigated url) ;;;
  match goto w url with
  | NavError e => throw e
  | NavOk p => ret p
  end.

(** *** search *)

Record SearchOptions := {
  sort : option string;
  page : option Z;
  priceMin : option Z;
  priceMax : option Z;
  limit : option Z }.

(** A found product, as [search] returns it.  [priceFormatted = Some q]
    stands for the string made of [q.toLocaleString('ru-RU')], a space and
    the rouble sign. *)
Module Found.
Record Product := {
  id : option string;
  url : option string;
  name : option text;
  brand : option text;
  price : option Q;
  priceFormatted : option Q;
  image : option string }.
End Found.

(** The price range token of the search URL. *)
Definition priceU (priceMin priceMax : option Z) : string :=
  if truthy_opt truthy_num priceMin || truthy_opt truthy_num priceMax then
    let min := or_num priceMin 0 * 100 in
    let max := or_num priceMax 999999999 * 100 in
    "&priceU=" +:+ Number_toString min +:+ "%3B" +:+ Number_toString max
  else "".

Definition searchUrl (query sort : string) (page : Z) : string :=
  "https://www.wildberries.ru/catalog/0/search.aspx?search="
  +:+ encodeURIComponent query +:+ "&sort=" +:+ sort
  +:+ "&page=" +:+ Number_toString page.

Definition listUrl (dest ids : string) : string :=
  "https://www.wildberries.ru/__internal/u-card/cards/v4/list?appType=1&curr=rub&dest="
  +:+ dest +:+ "&spp=30&lang=ru&nm=" +:+ ids.

(** The first number of plausible size among the matches. *)
Fixpoint first_plausible (matches : list text) : option Z :=
  match matches with
  | [] => None
  | m :: rest =>
      let num := parseInt (remove_spaces m) in
      if (0 <? num) && (num <? 100000000) then Some num
      else first_plausible rest
  end.

(** [walletPrice || finalPrice || anyPrice]. *)
Definition priceEl (c : Card) : option text :=
  match walletPrice c with
  | Some t => Some t
  | None => match finalPrice c with Some t => Some t | None => anyPrice c end
  end.

Definition priceNum (c : Card) : option Z :=
  match priceEl c with
  | Some t => first_plausible (digit_runs (trim t) None)
  | None => None
  end.

(** The callback mapped over the cards. *)
Definition extract (c : Card) : Found.Product :=
  {| Found.id := data_nm_id c;
     Found.url := href c;
     Found.name := trim <$> nameText c;
     Found.brand := (λ t, cut_at_slash (trim t) []) <$> brandText c;
     Found.price := inject_Z <$> priceNum c;
     Found.priceFormatted := inject_Z <$> priceNum c;
     Found.image := imgSrc c |}.

(** [!p.price && p.id]. *)
Definition lacks_price (p : Found.Product) : bool :=
  negb (truthy_opt truthy_rat (Found.price p)).
Definition without_price (p : Found.Product) : bool :=
  lacks_price p && truthy_opt truthy_str (Found.id p).

(** The property key an id turns into.  The keys that [priceMap] inherits
    from [Object.prototype] are not catalogue ids and are left out. *)
Definition key_of_id (i : option string) : string := default "null" i.

(** The first loop over [apiData.products]. *)
Definition priceMap_step (priceMap : gmap string Q) (p : Api.Product)
    : gmap string Q :=
  match Api.first_product p with
  | Some price =>
      if truthy_num price then <[template_num (Api.id p) := div100 price]> priceMap
      else priceMap
  | None => priceMap
  end.
Definition build_priceMap (ps : list Api.Product) : gmap string Q :=
  fold_left priceMap_step ps ∅.

(** The body of the second loop, over [products]. *)
Definition backfill (priceMap : gmap string Q) (p : Found.Product)
    : Found.Product :=
  match priceMap !! key_of_id (Found.id p) with
  | Some q =>
      if lacks_price p && truthy_rat q then
        {| Found.id := Found.id p; Found.url := Found.url p;
           Found.name := Found.name p; Found.brand := Found.brand p;
           Found.price := Some q; Found.priceFormatted := Some q;
           Found.image := Found.image p |}
      else p
  | None => p
  end.

(** [products.filter(p => !p.price && p.id)] and the joined ids. *)
Definition productsWithoutPrice (products : list Found.Product)
    : list Found.Product :=
  filter (λ p, without_price p = true) products.
Definition joined_ids (l : list Found.Product) : string :=
  join ";" ((λ p, default "" (Found.id p)) <$> l).

(** The second half of [search]: prices for the products without one. *)
Definition fetch_prices (w : World) (products : list Found.Product)
    : M (list Found.Product) :=
  if (0 <? length (productsWithoutPrice products))%nat then
    try_catch
      (let ids := joined_ids (productsWithoutPrice products) in
       let! dest := read_dest in
       let apiUrl := listUrl dest ids in
       let! apiData := apiRequest w apiUrl in
       match optional apiData ≫= Api.products with
       | Some ps => ret (backfill (build_priceMap ps) <$> products)
       | None => ret products
       end)
      (λ _, ret products)
  else ret products.

(** The URL that [search] navigates to. *)
Definition search_url (query : string) (options : SearchOptions) : string :=
  searchUrl query (default "popular" (sort options)) (default 1 (page options))
  +:+ priceU (priceMin options) (priceMax options).

Definition search (w : World) (query : string) (options : SearchOptions)
    : M (list Found.Product) :=
  init w ;;;
  let limit := default 20 (limit options) in
  let url := search_url query options in
  let! p := page_goto w url in
  if cardAppears p then
    let products := extract <$> slice0 (cards p) limit in
    fetch_prices w products
  else ret [].

(** *** getProductDetails *)

Module Detail.
Record Stock := {
  warehouse : option Json; qty : option Json; deliveryTime : string }.
Record Size := {
  name : string; optionId : option Json;
  price : option Q; stocks : option (list Stock) }.
Record Characteristic := { c_name : option Json; c_value : option Json }.
End Detail.

Record Details := {
  id : Z;
  name : option Json; brand : option Json; brandId : option Json;
  supplier : option Json; supplierId : option Json;
  supplierRating : option Json; rating : option Json;
  feedbacks : option Json; feedbackPoints : option Json;
  colors : option Json; pics : option Json;
  priceBasic : option Q;
  priceFinal : option Q;
  discount : option float;
  inStock : option Json;
  sizes : option (list Detail.Size);
  deliveryTime : option string;
  description : option string;
  characteristics : list Detail.Characteristic;
  url : string }.

Definition detailUrl (dest : string) (productId : Z) : string :=
  "https://www.wildberries.ru/__internal/u-card/cards/v4/detail?appType=1&curr=rub&dest="
  +:+ dest +:+ "&spp=30&lang=ru&nm=" +:+ Number_toString productId.

(** The two path segments of the content descriptor. *)
Definition vol (productId : Z) : Z := Math_floor_div productId 100000.
Definition part (productId : Z) : Z := Math_floor_div productId 1000.

Definition cardUrl (b : nat) (productId : Z) : string :=
  let bn := padStart 2 "0" (pretty b) in
  "https://basket-" +:+ bn +:+ ".wbbasket.ru/vol"
  +:+ Number_toString (vol productId) +:+ "/part"
  +:+ Number_toString (part productId) +:+ "/"
  +:+ Number_toString productId +:+ "/info/ru/card.json".

(** The mirror hosts, in the order of [for (let b = 1; b <= 36; b++)]. *)
Definition baskets : list nat := seq 1 36.

(** The loop over the hosts still to try; [cardData] is the variable of
    that name. *)
Fixpoint probe (w : World) (productId : Z) (hosts : list nat)
    (cardData : option Api.Body) : M (option Api.Body) :=
  match hosts with
  | [] => ret cardData
  | b :: rest =>
      let! r := try_catch
                  (let! got := apiRequest w (cardUrl b productId) in
                   ret (Some got))
                  (λ _, ret None) in
      match r with
      | Some (Truthy body) => ret (Some body)
      | Some _ => probe w productId rest None
      | None => probe w productId rest cardData
      end
  end.

(** [`${a}-${b} часов`]. *)
Definition hours (a b : option Z) : string :=
  template_num a +:+ "-" +:+ template_num b +:+ " часов".

(** [a && b ? `${a}-${b} часов` : null]. *)
Definition delivery (a b : option Z) : option string :=
  if truthy_opt truthy_num a && truthy_opt truthy_num b
  then Some (hours a b) else None.

Definition detail_stock (st : Api.Stock) : Detail.Stock :=
  {| Detail.warehouse := Api.wh st; Detail.qty := Api.qty st;
     Detail.deliveryTime := hours (Api.st_time1 st) (Api.st_time2 st) |}.

Definition detail_size (s : Api.Size) : Detail.Size :=
  {| Detail.name := or_str (Api.s_name s) "One size";
     Detail.optionId := Api.optionId s;
     Detail.price := roubles (Api.size_product s);
     Detail.stocks := map detail_stock <$> Api.stocks s |}.

Definition characteristic (o : Api.CardOption) : Detail.Characteristic :=
  {| Detail.c_name := Api.o_name o; Detail.c_value := Api.o_value o |}.

Definition productUrl (i : string) : string :=
  "https://www.wildberries.ru/catalog/" +:+ i +:+ "/detail.aspx".

(** The object literal [result], its [discount] still [null]. *)
Definition assemble (productId : Z) (product : Api.Product)
    (cardData : option Api.Body) : Details :=
  {| id := productId;
     name := Api.name product; brand := Api.brand product;
     brandId := Api.brandId product;
     supplier := Api.supplier product; supplierId := Api.supplierId product;
     supplierRating := Api.supplierRating product;
     rating := Api.rating product;
     feedbacks := Api.feedbacks product;
     feedbackPoints := Api.feedbackPoints product;
     colors := Api.colors product; pics := Api.pics product;
     priceBasic := roubles (Api.first_basic product);
     priceFinal := roubles (Api.first_product product);
     discount := None;
     inStock := Api.totalQuantity product;
     sizes := map detail_size <$> Api.sizes product;
     deliveryTime := delivery (Api.time1 product) (Api.time2 product);
     description :=
       match cardData ≫= Api.description with
       | Some d => if truthy_str d then Some d else None
       | None => None
       end;
     characteristics :=
       default [] (map characteristic <$> (cardData ≫= Api.options));
     url := productUrl (Number_toString productId) |}.

(** [if (result.priceBasic && result.priceFinal) result.discount = ...]. *)
Definition with_discount (result : Details) : Details :=
  match priceBasic result, priceFinal result with
  | Some pb, Some pf =>
      if truthy_rat pb && truthy_rat pf then
        {| id := id result;
           name := name result; brand := brand result;
           brandId := brandId result;
           supplier := supplier result; supplierId := supplierId result;
           supplierRating := supplierRating result; rating := rating result;
           feedbacks := feedbacks result;
           feedbackPoints := feedbackPoints result;
           colors := colors result; pics := pics result;
           priceBasic := priceBasic result;
           priceFinal := priceFinal result;
           discount :=
             Some (Math_round ((1 - double pf / double pb) * 100)%float);
           inStock := inStock result;
           sizes := sizes result;
           deliveryTime := deliveryTime result;
           description := description result;
           characteristics := characteristics result;
           url := url result |}
      else result
  | _, _ => result
  end.

Definition not_found (productId : Z) : Error :=
  {| message := "Product " +:+ Number_toString productId +:+ " not found" |}.

Definition getProductDetails (w : World) (productId : Z) : M Details :=
  init w ;;;
  let! dest := read_dest in
  let detailUrl := detailUrl dest productId in
  let! detailData := try_catch (apiRequest w detailUrl) (λ _, ret Null) in
  let! cardData := probe w productId baskets None in
  match Api.first_item (optional detailData) with
  | None => throw (not_found productId)
  | Some product => ret (with_discount (assemble productId product cardData))
  end.

(** *** getProductsList *)

Record Listed := {
  l_id : option Z;
  l_name : option Json; l_brand : option Json; l_supplier : option Json;
  l_supplierRating : option Json; l_rating : option Json;
  l_feedbacks : option Json;
  l_priceBasic : option Q;
  l_priceFinal : option Q;
  l_inStock : option Json;
  l_deliveryTime : option string;
  l_url : string }.

Definition listed (p : Api.Product) : Listed :=
  {| l_id := Api.id p;
     l_name := Api.name p; l_brand := Api.brand p;
     l_supplier := Api.supplier p;
     l_supplierRating := Api.supplierRating p; l_rating := Api.rating p;
     l_feedbacks := Api.feedbacks p;
     l_priceBasic := roubles (Api.first_basic p);
     l_priceFinal := roubles (Api.first_product p);
     l_inStock := Api.totalQuantity p;
     l_deliveryTime := delivery (Api.time1 p) (Api.time2 p);
     l_url := productUrl (template_num (Api.id p)) |}.

(** Reading a property of [null], as V8 words it. *)
Definition TypeError (property : string) : Error :=
  {| message := "Cannot read properties of null (reading '" +:+ property
                +:+ "')" |}.

Definition getProductsList (w : World) (productIds : list Z) : M (list Listed) :=
  init w ;;;
  let idsString := join ";" (Number_toString <$> productIds) in
  let! dest := read_dest in
  let url := listUrl dest idsString in
  let! data := apiRequest w url in
  match data with
  | Null => throw (TypeError "products")
  | Falsy => ret []
  | Truthy body => ret (default [] (map listed <$> Api.products body))
  end.

(** *** setDestination *)

Inductive Destination :=
  | DestinationSet (address : option string) (dest : string)
      (destinations : list Z)                       (* [success: true] *)
  | DestinationFailed (error : string).             (* [success: false] *)

Definition geoUrl (address : string) : string :=
  "https://www.wildberries.ru/__internal/user-geo-data/get-geo-info?currency=RUB&locale=ru&address="
  +:+ encodeURIComponent address
  +:+ "&dt=0&currentLocale=ru&b2bMode=false&newClient=true".

Definition setDestination (w : World) (address : string) : M Destination :=
  init w ;;;
  let failure := ret (DestinationFailed "Could not find destination") in
  try_catch
    (let! geoData := apiRequest w (geoUrl address) in
     match geoData with
     | Null => throw (TypeError "destinations")
     | Falsy => failure
     | Truthy geo =>
         match Api.destinations geo with
         | Some ds =>
             match last ds with
             | Some d =>
                 write_dest (Number_toString d) ;;;
                 let! dest := read_dest in
                 ret (DestinationSet (Api.address geo) dest ds)
             | None => failure
             end
         | None => failure
         end
     end)
    (λ _, failure).

(** *** getFilters *)

Inductive Filters :=
  | NoFilters (filters : list text)
  | FilterSet (query : string) (availableFilters : list text)
      (sortOptions : list (string * string))
      (urlParams : list (string * string)).

(** [[...new Set(l)]]: the first occurrence of each element, in order. *)
Fixpoint distinct (l seen : list text) : list text :=
  match l with
  | [] => []
  | x :: rest =>
      if bool_decide (x ∈ seen) then distinct rest seen
      else x :: distinct rest (x :: seen)
  end.

Definition filtersUrl (query : string) : string :=
  "https://www.wildberries.ru/catalog/0/search.aspx?search="
  +:+ encodeURIComponent query.

Definition sortOptions : list (string * string) :=
  [ ("popular", "По популярности"); ("rate", "По рейтингу");
    ("priceup", "По возрастанию цены"); ("pricedown", "По убыванию цены");
    ("newly", "По новинкам") ].

Definition urlParams : list (string * string) :=
  [ ("priceU", "Цена (в копейках, формат: min;max)");
    ("frating", "С рейтингом от 4.7 (значение: 1)");
    ("xsubject", "Категории (ID через точку с запятой)");
    ("sort", "Сортировка"); ("page", "Номер страницы") ].

Definition getFilters (w : World) (query : string) : M Filters :=
  init w ;;;
  let! p := page_goto w (filtersUrl query) in
  if cardAppears p then
    let filters :=
      filter (λ t, t ≠ []) (trim <$> filterButtons p) in
    ret (FilterSet query (distinct filters []) sortOptions urlParams)
  else ret (NoFilters []).

(** ** The tool layer *)

(** A tool call: the tool's name with the arguments its [inputSchema]
    declares, the required ones present. *)
Inductive ToolCall :=
  | wb_search (query : string) (sort : option string)
      (page priceMin priceMax limit : option Z)
  | wb_product_details (productId : Z)
  | wb_products_list (productIds : list Z)
  | wb_set_destination (address : string)
  | wb_get_filters (query : string)
  | other_tool (name : string).

(** The options object both servers hand to [search]. *)
Definition effective_limit (limit : option Z) : Z :=
  Math_min (or_num limit 20) 100.

Definition search_options (sort : option string)
    (page priceMin priceMax limit : option Z) : SearchOptions :=
  {| sort := Some (or_str sort "popular");
     page := Some (or_num page 1);
     priceMin := priceMin;
     priceMax := priceMax;
     limit := Some (effective_limit limit) |}.

Definition unknown_tool (name : string) : Error :=
  {| message := "Unknown tool: " +:+ name |}.

(** *** The stdio server *)

Module Stdio.

(** The object that is serialised into the text of the result. *)
Inductive Payload :=
  | Searched (query : string) (count : nat) (products : list Found.Product)
  | Product (product : Details)
  | Products (count : nat) (products : list Listed)
  | Destined (result : Destination)
  | Filtered (filters : Filters)
  | Failed (error : string).

Record CallToolResult := { content : Payload; isError : bool }.

Definition ok (p : Payload) : CallToolResult :=
  {| content := p; isError := false |}.

(** The [CallToolRequestSchema] handler. *)
Definition callTool (w : World) (call : ToolCall) : M CallToolResult :=
  try_catch
    (match call with
     | wb_search query sort page priceMin priceMax limit =>
         let! results :=
           search w query (search_options sort page priceMin priceMax limit) in
         ret (ok (Searched query (length results) results))
     | wb_product_details productId =>
         let! product := getProductDetails w productId in
         ret (ok (Product product))
     | wb_products_list productIds =>
         let! products := getProductsList w productIds in
         ret (ok (Products (length products) products))
     | wb_set_destination address =>
         let! result := setDestination w address in
         ret (ok (Destined result))
     | wb_get_filters query =>
         let! filters := getFilters w query in
         ret (ok (Filtered filters))
     | other_tool name => throw (unknown_tool name)
     end)
    (λ error, ret {| content := Failed (message error); isError := true |}).

End Stdio.

(** *** The HTTP server *)

Module Http.

Inductive RpcId := IdNum (n : Z) | IdStr (s : string).

Record Request := {
  method : string;
  params : option ToolCall;
  id : option RpcId }.

(** What [tools/call] serialises into the text of its result. *)
Inductive ToolValue :=
  | Searched (products : list Found.Product)
  | Product (product : Details)
  | Products (products : list Listed)
  | Destined (result : Destination)
  | Filtered (filters : Filters).

(** The entries of [TOOLS]: name, description, required arguments. *)
Definition TOOLS : list (string * string * list string) :=
  [ ("wb_search", "Search for products on Wildberries marketplace", ["query"]);
    ("wb_product_details", "Get detailed product information by ID",
     ["productId"]);
    ("wb_products_list", "Get multiple products by IDs", ["productIds"]);
    ("wb_set_destination", "Set delivery destination city", ["address"]);
    ("wb_get_filters", "Get available filters for search", ["query"]) ].

Inductive Reply :=
  | Initialized (protocolVersion serverName serverVersion : string)
  | ToolList (tools : list (string * string * list string))
  | ToolContent (text : ToolValue)
  | RpcError (code : Z) (message : string).

Record Response := { r_id : option RpcId; reply : Reply }.

Definition call (w : World) (c : ToolCall) : M ToolValue :=
  match c with
  | wb_search query sort page priceMin priceMax limit =>
      let! result :=
        search w query (search_options sort page priceMin priceMax limit) in
      ret (Searched result)
  | wb_product_details productId =>
      let! result := getProductDetails w productId in ret (Product result)
  | wb_products_list productIds =>
      let! result := getProductsList w productIds in ret (Products result)
  | wb_set_destination address =>
      let! result := setDestination w address in ret (Destined result)
  | wb_get_filters query =>
      let! result := getFilters w query in ret (Filtered result)
  | other_tool name => throw (unknown_tool name)
  end.

(** Destructuring [params] when it is [undefined], as V8 words it. *)
Definition cannot_destructure : Error :=
  {| message :=
       "Cannot destructure property 'name' of 'params' as it is undefined." |}.

(** [handleJsonRpcRequest]: the response, or [None] when there is none. *)
Definition handleJsonRpcRequest (w : World) (request : Request)
    : M (option Response) :=
  let respond r := ret (Some {| r_id := id request; reply := r |}) in
  try_catch
    (if String.eqb (method request) "initialize" then
       respond (Initialized "2025-03-26" "wb-mcp-server" "1.0.0")
     else if String.eqb (method request) "tools/list" then
       respond (ToolList TOOLS)
     else if String.eqb (method request) "tools/call" then
       match params request with
       | None => throw cannot_destructure
       | Some c => let! result := call w c in respond (ToolContent result)
       end
     else if String.eqb (method request) "notifications/initialized" then
       ret None
     else
       respond (RpcError (-32601) ("Method not found: " +:+ method request)))
    (λ error, respond (RpcError (-32603) (message error))).

(** What a [POST /mcp] meets: the world at the time of each request of the
    body, the two draws of [Math.random().toString(36)] and [Date.now()]. *)
Record Env := {
  world_at : nat → World;
  random1 : string;
  random2 : string;
  now : Z }.

Record Server := {
  wbClient : WBClient;
  sessions : gmap string Z }.

Inductive Posted := Single (request : Request) | Batch (requests : list Request).
Inductive Sent := NoContent | One (response : Response) | Many (responses : list Response).

Record HttpResponse := {
  status : nat;
  Mcp_Session_Id : option string;
  sent : Sent }.

(** [s.substring(2, 15)]. *)
Definition generateSessionId (r1 r2 : string) : string :=
  "mcp-" +:+ String.substring 2 13 r1 +:+ String.substring 2 13 r2.

(** The loop over [requests]; [i] is the position of the next request and
    [responses] the array filled so far. *)
Fixpoint handle_all (env : Env) (i : nat) (requests : list Request)
    (responses : list Response) (c : WBClient) : list Response * WBClient :=
  match requests with
  | [] => (responses, c)
  | request :: rest =>
      match handleJsonRpcRequest (world_at env i) request c with
      | (Return (Some response), c') =>
          handle_all env (S i) rest (responses ++ [response]) c'
      | (_, c') => handle_all env (S i) rest responses c'
      end
  end.

Definition is_initialize (r : Request) : bool :=
  String.eqb (method r) "initialize".

(** The route [app.post('/mcp')]. *)
Definition post_mcp (env : Env) (sessionId : option string) (body : Posted)
    (srv : Server) : HttpResponse * Server :=
  let requests := match body with Single r => [r] | Batch rs => rs end in
  let '(responses, c) := handle_all env 0 requests [] (wbClient srv) in
  let mint := existsb is_initialize requests
              && negb (truthy_opt truthy_str sessionId) in
  let newSessionId := generateSessionId (random1 env) (random2 env) in
  let sessions' :=
    if mint then <[newSessionId := now env]> (sessions srv) else sessions srv in
  let header := if mint then Some newSessionId else None in
  let srv' := {| wbClient := c; sessions := sessions' |} in
  match responses with
  | [] => ({| status := 202; Mcp_Session_Id := header; sent := NoContent |}, srv')
  | [r] => ({| status := 200; Mcp_Session_Id := header; sent := One r |}, srv')
  | _ => ({| status := 200; Mcp_Session_Id := header; sent := Many responses |}, srv')
  end.

End Http.

(** *** The other routes, and close *)

(** [close]: the browser goes, the destination stays. *)
Definition close : M unit :=
  λ c, if isInitialized c
       then (Return (), {| isInitialized := false; dest := dest c;
                           history := history c |})
       else (Return (), c).

Module Routes.

(** The body of the answer to [DELETE /mcp]. *)
Inductive Deleted :=
  | Terminated                        (* [{ success: true }] *)
  | NotFound (error : string).        (* [{ error: ... }] *)

(** The route [app.delete('/mcp')]: status, body and the server after. *)
Definition delete_mcp (sessionId : option string) (srv : Http.Server)
    : nat * Deleted * Http.Server :=
  match sessionId with
  | Some s =>
      if truthy_str s && bool_decide (is_Some (Http.sessions srv !! s)) then
        (200%nat, Terminated,
         {| Http.wbClient := Http.wbClient srv;
            Http.sessions := delete s (Http.sessions srv) |})
      else (404%nat, NotFound "Session not found", srv)
  | None => (404%nat, NotFound "Session not found", srv)
  end.

(** The [sessions] number of [GET /health]. *)
Definition health (srv : Http.Server) : nat := size (Http.sessions srv).

End Routes.

(** ** Notions used in the statements *)

(** A client whose browser is up, or can be brought up. *)
Definition ready (w : World) (c : WBClient) : Prop :=
  isInitialized c = true ∨ launch w = None ∧ warm_up w = None.

(** The launch, if the client still has to start its browser. *)
Definition started (c : WBClient) : list Event :=
  if isInitialized c then [] else [Launched].

(** The client with its browser up after some more events. *)
Definition up (c : WBClient) (events : list Event) : WBClient :=
  {| isInitialized := true; dest := dest c;
     history := history c ++ events |}.

(** What [apiRequest] makes of what [fetch] gives. *)
Definition answered (r : Fetched) : Outcome Answer :=
  match r with
  | Rejected e => Throw e
  | Resolved (Some body) => Return (Truthy body)
  | Resolved None => Return Null
  | Resolved_falsy => Return Falsy
  end.

(** The per-size product price that a descriptor gives for a key: that of
    the last listed product with that id and a price that is not 0. *)
Fixpoint descriptor_price (ds : list Api.Product) (key : string) : option Z :=
  match ds with
  | [] => None
  | d :: rest =>
      match descriptor_price rest key with
      | Some k => Some k
      | None =>
          match Api.first_product d with
          | Some k =>
              if truthy_num k && String.eqb (template_num (Api.id d)) key
              then Some k else None
          | None => None
          end
      end
  end.

(** The products of the descriptor that a search gets for its products
    without a price, when it asks for one and gets it. *)
Definition listed_prices (w : World) (dest : string)
    (products : list Found.Product) : option (list Api.Product) :=
  if (0 <? length (productsWithoutPrice products))%nat then
    match fetch w (listUrl dest (joined_ids (productsWithoutPrice products))) with
    | Resolved body => body ≫= Api.products
    | _ => None
    end
  else None.

(** The answer of the price/stock descriptor for one id, as
    [getProductDetails] keeps it in [detailData]. *)
Definition detail_answer (w : World) (dest : string) (productId : Z)
    : option Api.Body :=
  match fetch w (detailUrl dest productId) with
  | Resolved body => body
  | _ => None
  end.

(** A descriptor that answers and lists no product. *)
Definition yields_no_item (r : Fetched) : Prop :=
  ∃ body, r = Resolved (Some body)
          ∧ (Api.products body = None ∨ Api.products body = Some []).

(** Mirror resolution in the words of its contract: the content descriptor
    that host [b] holds, the first host of a range that holds one, and the
    hosts that are asked, one request each, up to that host. *)
Definition held_at (w : World) (productId : Z) (b : nat) : option Api.Body :=
  match fetch w (cardUrl b productId) with
  | Resolved (Some body) => Some body
  | _ => None
  end.

Fixpoint resolve (w : World) (productId : Z) (hosts : list nat)
    : option Api.Body :=
  match hosts with
  | [] => None
  | b :: rest =>
      match held_at w productId b with
      | Some body => Some body
      | None => resolve w productId rest
      end
  end.

Fixpoint asked (w : World) (productId : Z) (hosts : list nat) : list nat :=
  match hosts with
  | [] => []
  | b :: rest =>
      b :: match held_at w productId b with
           | Some _ => []
           | None => asked w productId rest
           end
  end.

(** The requests for the content descriptor that go to a list of hosts. *)
Definition card_requests (productId : Z) (hosts : list nat) : list Event :=
  (λ b, Requested (cardUrl b productId)) <$> hosts.

(** The zone candidates and the address of a geo lookup; a lookup that
    fails has no candidate. *)
Definition candidates (r : Fetched) : list Z :=
  match r with
  | Resolved (Some geo) => default [] (Api.destinations geo)
  | _ => []
  end.
Definition resolved_address (r : Fetched) : option string :=
  match r with
  | Resolved (Some geo) => Api.address geo
  | _ => None
  end.

(** Batches in the words of the protocol: one answer per request, in
    order, each worked out by [handleJsonRpcRequest] alone on the client as
    the requests before it left it; [None] is a request that gets no
    answer. *)
Fixpoint answers (env : Http.Env) (i : nat) (requests : list Http.Request)
    (c : WBClient) : list (option Http.Response) * WBClient :=
  match requests with
  | [] => ([], c)
  | request :: rest =>
      let (o, c1) :=
        Http.handleJsonRpcRequest (Http.world_at env i) request c in
      let (os, c2) := answers env (S i) rest c1 in
      (match o with Return a => a | Throw _ => None end :: os, c2)
  end.

(** The answers that there are, in their order. *)
Definition given_answers (l : list (option Http.Response))
    : list Http.Response :=
  omap (λ o, o) l.

(** The responses that a body carries. *)
Definition responses_sent (s : Http.Sent) : list Http.Response :=
  match s with
  | Http.NoContent => []
  | Http.One r => [r]
  | Http.Many rs => rs
  end.

(** An event that, if it is a request to the price/stock descriptor, has
    the zone code [d] in its query: a request whose URL is under
    [/__internal/u-card/] goes to the [list] or the [detail] endpoint with
    [dest=d]. *)
Definition zone_request (d : string) (e : Event) : Prop :=
  match e with
  | Requested url =>
      String.prefix "https://www.wildberries.ru/__internal/u-card/" url = true →
      ∃ endpoint ids,
        (endpoint = "list" ∨ endpoint = "detail")
        ∧ url = "https://www.wildberries.ru/__internal/u-card/cards/v4/"
                +:+ endpoint +:+ "?appType=1&curr=rub&dest=" +:+ d
                +:+ "&spp=30&lang=ru&nm=" +:+ ids
  | _ => True
  end.

(** A tool call that came back with a new destination. *)
Definition changes_destination (o : Outcome Http.ToolValue) : Prop :=
  ∃ address d ds, o = Return (Http.Destined (DestinationSet address d ds)).

(** The clients that tool calls can reach from a new one while no call
    has changed the destination. *)
Inductive before_destination_change : WBClient → Prop :=
  | fresh_client : before_destination_change constructor
  | after_call w tc c o c' :
      before_destination_change c →
      Http.call w tc c = (o, c') →
      ¬ changes_destination o →
      before_destination_change c'.

(** The clients that tool calls can reach from a new one. *)
Inductive reachable : WBClient → Prop :=
  | reach_new : reachable constructor
  | reach_call w tc c o c' :
      reachable c → Http.call w tc c = (o, c') → reachable c'.

(** How many times the browser was launched. *)
Definition is_launch (e : Event) : bool :=
  match e with Launched => true | _ => false end.
Definition launches (h : list Event) : nat :=
  length (filter (λ e, is_launch e = true) h).

(** The requests to endpoints in a history. *)
Definition is_request (e : Event) : bool :=
  match e with Requested _ => true | _ => false end.
Definition requests_in (h : list Event) : list Event :=
  filter (λ e, is_request e = true) h.

(** What the stdio server serialises for a value of the HTTP server. *)
Definition stdio_payload (tc : ToolCall) (v : Http.ToolValue)
    : Stdio.Payload :=
  match v with
  | Http.Searched ps =>
      Stdio.Searched
        (match tc with wb_search query _ _ _ _ _ => query | _ => "" end)
        (length ps) ps
  | Http.Product d => Stdio.Product d
  | Http.Products l => Stdio.Products (length l) l
  | Http.Destined r => Stdio.Destined r
  | Http.Filtered f => Stdio.Filtered f
  end.

(** A request that gets no answer. *)
Definition is_notification (r : Http.Request) : bool :=
  String.eqb (Http.method r) "notifications/initialized".

(** The requests of a POST body. *)
Definition posted_requests (body : Http.Posted) : list Http.Request :=
  match body with Http.Single r => [r] | Http.Batch rs => rs end.

(** ** A small marketplace

    Two rendered cards, the first priced in the markup and the second not,
    and endpoints that answer every request with the same object. *)

Module Sample.

Definition priced : Card :=
  {| data_nm_id := Some "101"; href := Some "https://www.wildberries.ru/catalog/101/detail.aspx";
     nameText := Some [32; 75; 101; 116; 116; 108; 101; 32]%N;
     brandText := Some [65; 99; 109; 101; 32; 47; 32]%N;
     imgSrc := None;
     walletPrice := Some [49; 160; 50; 51; 52; 32; 8381]%N;
     finalPrice := None;
     anyPrice := Some [49; 160; 53; 48; 48; 32; 8381]%N |}.

Definition unpriced : Card :=
  {| data_nm_id := Some "102"; href := None; nameText := None;
     brandText := None; imgSrc := None;
     walletPrice := None; finalPrice := None; anyPrice := None |}.

Definition bare (i : Z) (ss : option (list Api.Size)) : Api.Product :=
  {| Api.id := Some i; Api.name := Some (JStr "Kettle"); Api.brand := None;
     Api.brandId := None; Api.supplier := None; Api.supplierId := None;
     Api.supplierRating := None; Api.rating := Some (JNum (47 # 10));
     Api.feedbacks := None; Api.feedbackPoints := None; Api.colors := None;
     Api.pics := None; Api.sizes := ss; Api.totalQuantity := None;
     Api.time1 := Some 2; Api.time2 := Some 26 |}.

Definition one_size (b p : option Z) : Api.Size :=
  {| Api.s_name := None; Api.optionId := None;
     Api.price := Some {| Api.basic := b; Api.product := p |};
     Api.stocks := None |}.

Definition answer : Api.Body :=
  {| Api.products :=
       Some [bare 102 (Some [one_size (Some 200000) (Some 150000)])];
     Api.description := Some "An electric kettle";
     Api.options := Some [ {| Api.o_name := Some (JStr "Volume");
                              Api.o_value := Some (JStr "1.7 l") |} ];
     Api.address := Some "Kazan";
     Api.destinations := Some [-1257786; -2133462] |}.

Definition nothing : Api.Body :=
  {| Api.products := None; Api.description := None; Api.options := None;
     Api.address := None; Api.destinations := Some [] |}.

Definition results (shown : bool) : Rendered :=
  {| cardAppears := shown; cards := [priced; unpriced];
     filterButtons := [[83; 105; 122; 101]; [32]; [83; 105; 122; 101]]%N |}.

Definition world : World :=
  {| launch := None; warm_up := None;
     goto := λ _, NavOk (results true);
     fetch := λ _, Resolved (Some answer) |}.

(** The same site when no card shows up and the endpoints know nothing. *)
Definition barren : World :=
  {| launch := None; warm_up := None;
     goto := λ _, NavOk (results false);
     fetch := λ _, Resolved (Some nothing) |}.

(** The same site when no mirror holds the content descriptor. *)
Definition mirrorless : World :=
  {| launch := None; warm_up := None;
     goto := λ _, NavOk (results true);
     fetch := λ url, if String.prefix "https://basket-" url
                     then Rejected {| message := "HTTP 404" |}
                     else Resolved (Some answer) |}.

(** A site that knows one product, reduced from 200 to 155 roubles, and
    holds no content descriptor for it. *)
Definition reduced : World :=
  {| launch := None; warm_up := None;
     goto := λ _, NavOk (results true);
     fetch := λ url,
       if String.prefix "https://basket-" url
       then Rejected {| message := "HTTP 404" |}
       else Resolved (Some
         {| Api.products :=
              Some [bare 103 (Some [one_size (Some 20000) (Some 15500)])];
            Api.description := None; Api.options := None;
            Api.address := None; Api.destinations := None |}) |}.

(** The same site when every request is rejected. *)
Definition unreachable : World :=
  {| launch := None; warm_up := None;
     goto := λ _, NavOk (results true);
     fetch := λ _, Rejected {| message := "HTTP 404" |} |}.

End Sample.

(** * Properties *)

(** ** Reasoning about the methods *)

Section Monad.
Context {A B : Type}.

Lemma bind_Return (m : M A) (k : A → M B) c b c' :
  bind m k c = (Return b, c') →
  ∃ a c1, m c = (Return a, c1) ∧ k a c1 = (Return b, c').
Proof.
  unfold bind. destruct (m c) as [[a|e] c1]; intros H; [eauto | discriminate].
Qed.

Lemma bind_step (m : M A) (k : A → M B) c a c1 :
  m c = (Return a, c1) → bind m k c = k a c1.
Proof. unfold bind. by intros ->. Qed.

Lemma bind_Throw (m : M A) (k : A → M B) c e c1 :
  m c = (Throw e, c1) → bind m k c = (Throw e, c1).
Proof. unfold bind. by intros ->. Qed.

End Monad.

Lemma init_ready w c :
  ready w c → init w c = (Return (), up c (started c)).
Proof.
  unfold ready, init, up, started. destruct c as [i d h]; simpl.
  destruct i; intros [?|[Hl Hw]]; try discriminate.
  - by rewrite app_nil_r.
  - by rewrite app_nil_r.
  - by rewrite Hl, Hw.
Qed.

Lemma init_up w c ev : init w (up c ev) = (Return (), up c ev).
Proof. reflexivity. Qed.

Lemma init_dest w c o c' : init w c = (o, c') → dest c' = dest c.
Proof.
  unfold init. destruct (isInitialized c); [by intros [= _ <-]|].
  destruct (launch w); [by intros [= _ <-]|].
  destruct (warm_up w); by intros [= _ <-].
Qed.

Lemma apiRequest_up w url c ev :
  apiRequest w url (up c ev) =
  (answered (fetch w url), up c (ev ++ [Requested url])).
Proof.
  unfold apiRequest, bind, record, up; simpl.
  rewrite <- app_assoc. by destruct (fetch w url) as [e|[body|]|].
Qed.

Lemma apiRequest_dest w url c o c' :
  apiRequest w url c = (o, c') → dest c' = dest c.
Proof.
  unfold apiRequest, bind, record.
  destruct (init w c) as [[[]|e] c1] eqn:Hi; apply init_dest in Hi.
  - simpl. destruct (fetch w url) as [e'|[body|]|]; by intros [= _ <-].
  - by intros [= _ <-].
Qed.

(** ** The limit of a search *)

Lemma slice0_length {X} (l : list X) (e : Z) :
  0 ≤ e → Z.of_nat (length (slice0 l e)) ≤ e.
Proof.
  intros He. unfold slice0.
  destruct (Z.ltb_spec e 0) as [?|_]; [lia|].
  rewrite length_take. lia.
Qed.

Lemma fetch_prices_length w ps c ps' c' :
  fetch_prices w ps c = (Return ps', c') → length ps' = length ps.
Proof.
  unfold fetch_prices. case (_ <? _)%nat; [|by intros [= <- _]].
  unfold try_catch.
  destruct (bind _ _ c) as [[r|e] c1] eqn:Hb; [|by intros [= <- _]].
  intros [= -> ->].
  apply bind_Return in Hb as (d & c2 & _ & Hb).
  apply bind_Return in Hb as (apiData & c3 & _ & Hb).
  destruct (optional apiData ≫= Api.products); injection Hb as <- _;
    [by rewrite length_fmap | done].
Qed.

Lemma search_length w query options c ps c' :
  search w query options c = (Return ps, c') →
  0 ≤ default 20 (limit options) →
  Z.of_nat (length ps) ≤ default 20 (limit options).
Proof.
  unfold search. intros H Hl.
  apply bind_Return in H as ([] & c1 & _ & H).
  apply bind_Return in H as (p & c2 & _ & H).
  destruct (cardAppears p).
  - apply fetch_prices_length in H. rewrite H, length_fmap.
    by apply slice0_length.
  - injection H as <- _. simpl. lia.
Qed.

Lemma effective_limit_le limit : effective_limit limit ≤ 100.
Proof. unfold effective_limit, Math_min. lia. Qed.

Lemma call_search w query sort page priceMin priceMax limit c ps c' :
  Http.call w (wb_search query sort page priceMin priceMax limit) c
    = (Return (Http.Searched ps), c') →
  search w query (search_options sort page priceMin priceMax limit) c
    = (Return ps, c').
Proof.
  simpl. intros H. apply bind_Return in H as (r & c1 & Hs & H).
  by injection H as -> ->.
Qed.

(** C1, as the handlers have it: the effective limit is 20 when [limit] is
    absent or 0 and the smaller of [limit] and 100 otherwise; when the
    requested limit is not negative, the products a search invocation
    returns, over HTTP or over stdio, number at most the effective limit,
    which is at most 100, and at most the requested limit when that is
    positive. *)
Theorem search_tool_limit w query sort page priceMin priceMax limit c ps c' :
  Http.call w (wb_search query sort page priceMin priceMax limit) c
    = (Return (Http.Searched ps), c') →
  (∀ l, limit = Some l → 0 ≤ l) →
  effective_limit limit =
    match limit with
    | Some l => if l =? 0 then 20 else Z.min l 100
    | None => 20
    end
  ∧ Z.of_nat (length ps) ≤ effective_limit limit ≤ 100
  ∧ (∀ l, limit = Some l → 0 < l → Z.of_nat (length ps) ≤ l)
  ∧ Stdio.callTool w (wb_search query sort page priceMin priceMax limit) c
      = (Return (Stdio.ok (Stdio.Searched query (length ps) ps)), c').
Proof.
  intros H Hl. apply call_search in H.
  assert (He : effective_limit limit =
    match limit with
    | Some l => if l =? 0 then 20 else Z.min l 100 | None => 20 end).
  { unfold effective_limit, Math_min, or_num, truthy_num.
    destruct limit as [l|]; [|done]. by destruct (l =? 0). }
  assert (H0 : 0 ≤ effective_limit limit).
  { rewrite He. destruct limit as [l|]; [|lia].
    specialize (Hl l eq_refl). destruct (l =? 0); lia. }
  pose proof (search_length _ _ _ _ _ _ H H0) as Hlen. simpl in Hlen.
  split; [done|]. split; [split; [done | apply effective_limit_le]|].
  split.
  - intros l -> Hpos. rewrite He in Hlen.
    destruct (Z.eqb_spec l 0); lia.
  - unfold Stdio.callTool, try_catch.
    by rewrite (bind_step _ _ _ _ _ H).
Qed.

Lemma search_tool_limit_witness :
  Z.of_nat (length (take 1 (extract <$> [Sample.priced]))) ≤ 1.
Proof.
  refine (proj1 (proj2 (proj2
    (search_tool_limit Sample.world "kettle" None None None None (Some 1)
       constructor _ _ _ _))) 1 eq_refl _).
  - vm_compute. reflexivity.
  - intros l [= <-]. lia.
  - lia.
Defined.

(** C1 as stated fails for a requested limit of 0, which the handlers take
    for an absent one: two products come back. *)
Lemma search_tool_limit_zero :
  ∃ ps c',
    Http.call Sample.world (wb_search "kettle" None None None None (Some 0))
      constructor = (Return (Http.Searched ps), c')
    ∧ ¬ (Z.of_nat (length ps) ≤ 0).
Proof.
  eexists _, _. split; [vm_compute; reflexivity|]. simpl. lia.
Qed.

(** ** The discount of a detail record *)

Lemma roubles_truthy o q : roubles o = Some q → truthy_rat q = true.
Proof.
  unfold roubles, truthy_rat, truthy_num. destruct o as [k|]; [|done].
  destruct (Z.eqb_spec k 0) as [|Hk]; [done|]. intros [= <-].
  simpl. apply negb_true_iff, Z.eqb_neq. lia.
Qed.

Lemma with_discount_prices r :
  priceBasic (with_discount r) = priceBasic r
  ∧ priceFinal (with_discount r) = priceFinal r.
Proof.
  unfold with_discount.
  destruct (priceBasic r) as [pb|] eqn:Hb, (priceFinal r) as [pf|] eqn:Hf;
    try done.
  by destruct (_ && _).
Qed.

Lemma with_discount_content r :
  description (with_discount r) = description r
  ∧ characteristics (with_discount r) = characteristics r.
Proof.
  unfold with_discount.
  destruct (priceBasic r) as [pb|], (priceFinal r) as [pf|]; try done.
  by destruct (_ && _).
Qed.

Lemma getProductDetails_Return w productId c r c' :
  getProductDetails w productId c = (Return r, c') →
  ∃ product cardData,
    r = with_discount (assemble productId product cardData).
Proof.
  unfold getProductDetails. intros H.
  apply bind_Return in H as ([] & c1 & _ & H).
  apply bind_Return in H as (d & c2 & _ & H).
  apply bind_Return in H as (detailData & c3 & _ & H).
  apply bind_Return in H as (cardData & c4 & _ & H).
  destruct (Api.first_item (optional detailData)) as [product|];
    [|discriminate].
  injection H as <- _. eauto.
Qed.

(** C2: in a detail record that [getProductDetails] returns, [discount] is
    [round((1 - priceFinal / priceBasic) * 100)], worked out in doubles on
    the doubles of the two prices, when both prices are there, and [null]
    when one of them is. *)
Theorem discount_rule w productId c r c' :
  getProductDetails w productId c = (Return r, c') →
  (∀ pb pf, priceBasic r = Some pb → priceFinal r = Some pf →
     discount r
     = Some (Math_round ((1 - double pf / double pb) * 100)%float))
  ∧ (priceBasic r = None ∨ priceFinal r = None → discount r = None).
Proof.
  intros H. apply getProductDetails_Return in H as (product & cardData & ->).
  set (a := assemble productId product cardData).
  assert (Hd : discount a = None) by done.
  assert (Hb : ∀ q, priceBasic a = Some q → truthy_rat q = true)
    by (intros q; apply roubles_truthy).
  assert (Hf : ∀ q, priceFinal a = Some q → truthy_rat q = true)
    by (intros q; apply roubles_truthy).
  clearbody a. unfold with_discount.
  destruct (priceBasic a) as [pb|] eqn:Eb, (priceFinal a) as [pf|] eqn:Ef.
  - rewrite (Hb pb), (Hf pf) by done. simpl. split.
    + by intros ? ? [= <-] [= <-].
    + by intros [|].
  - rewrite Ef. split; [by intros ? ? _ ?|done].
  - rewrite Eb. split; [by intros ? ? ?|done].
  - rewrite Eb. split; [by intros ? ? ?|done].
Qed.

Lemma discount_rule_witness :
  discount (with_discount
    (assemble 103 (Sample.bare 103
       (Some [Sample.one_size (Some 20000) (Some 15500)])) None))
  = Some (Math_round
            ((1 - double (div100 15500) / double (div100 20000)) * 100)%float).
Proof.
  refine (proj1 (discount_rule Sample.reduced 103 constructor _ _ _)
            (div100 20000) (div100 15500) _ _).
  - vm_compute. reflexivity.
  - reflexivity.
  - reflexivity.
Defined.

(** The rounding is that of the doubles: 155 / 200 is a little above
    0.775, so the discount of 155 roubles on 200 is 22, where the exact
    quotient would give the tie 22.5 and 23; a final price above the basic
    one gives a discount below 0. *)
Example discount_in_doubles :
  discount (with_discount
    (assemble 103 (Sample.bare 103
       (Some [Sample.one_size (Some 20000) (Some 15500)])) None))
  = Some 22%float
  ∧ discount (with_discount
      (assemble 103 (Sample.bare 103
         (Some [Sample.one_size (Some 20000) (Some 22900)])) None))
    = Some (-15)%float
  ∧ discount (with_discount
      (assemble 102 (Sample.bare 102
         (Some [Sample.one_size (Some 200000) (Some 150000)])) None))
    = Some 25%float.
Proof. split_and!; vm_compute; reflexivity. Qed.

(** ** Where the price of a found product comes from *)

Lemma descriptor_price_nonzero ds key k :
  descriptor_price ds key = Some k → truthy_num k = true.
Proof.
  induction ds as [|d rest IH]; simpl; [done|].
  destruct (descriptor_price rest key) as [k'|]; [by intros [= <-]; auto|].
  destruct (Api.first_product d) as [k'|]; [|done].
  destruct (truthy_num k') eqn:Hk; simpl; [|done].
  destruct (String.eqb _ _); [by intros [= <-]|done].
Qed.

Lemma fold_priceMap ds (m : gmap string Q) key :
  fold_left priceMap_step ds m !! key =
  match descriptor_price ds key with
  | Some k => Some (div100 k)
  | None => m !! key
  end.
Proof.
  revert m. induction ds as [|d rest IH]; intros m; simpl; [done|].
  rewrite IH. destruct (descriptor_price rest key); [done|].
  unfold priceMap_step. destruct (Api.first_product d) as [k|]; [|done].
  destruct (truthy_num k); simpl; [|done].
  destruct (String.eqb_spec (template_num (Api.id d)) key) as [->|Hne].
  - by rewrite lookup_insert_eq.
  - by rewrite lookup_insert_ne.
Qed.

Lemma build_priceMap_lookup ds key :
  build_priceMap ds !! key = div100 <$> descriptor_price ds key.
Proof.
  unfold build_priceMap. rewrite fold_priceMap, lookup_empty.
  by destruct (descriptor_price ds key).
Qed.

Lemma div100_truthy k : truthy_num k = true → truthy_rat (div100 k) = true.
Proof.
  unfold truthy_num, truthy_rat. simpl. rewrite !negb_true_iff, !Z.eqb_neq. lia.
Qed.

Lemma first_plausible_pos ms n : first_plausible ms = Some n → 0 < n.
Proof.
  induction ms as [|m rest IH]; simpl; [done|].
  destruct (Z.ltb_spec 0 (parseInt (remove_spaces m))); simpl; [|done].
  destruct (_ <? 100000000); [by intros [= <-]|done].
Qed.

Lemma priceNum_pos card n : priceNum card = Some n → 0 < n.
Proof.
  unfold priceNum. destruct (priceEl card); [apply first_plausible_pos|done].
Qed.

(** The price of a product after the second loop. *)
Lemma backfill_price ds card :
  Found.price (backfill (build_priceMap ds) (extract card)) =
  match priceNum card with
  | Some n => Some (inject_Z n)
  | None => div100 <$> descriptor_price ds (key_of_id (data_nm_id card))
  end.
Proof.
  unfold backfill. rewrite build_priceMap_lookup. simpl.
  destruct (priceNum card) as [n|] eqn:Hn.
  - assert (lacks_price (extract card) = false) as ->.
    { unfold lacks_price, truthy_rat. simpl. rewrite Hn. simpl.
      apply priceNum_pos in Hn. apply negb_false_iff, negb_true_iff, Z.eqb_neq.
      lia. }
    destruct (descriptor_price ds _); simpl; by rewrite Hn.
  - destruct (descriptor_price ds _) as [k|] eqn:Hk; simpl; [|by rewrite Hn].
    assert (lacks_price (extract card) = true) as ->.
    { unfold lacks_price. simpl. by rewrite Hn. }
    apply descriptor_price_nonzero, div100_truthy in Hk. by rewrite Hk.
Qed.

Lemma extract_price card :
  Found.price (extract card) = inject_Z <$> priceNum card.
Proof. reflexivity. Qed.

Lemma fetch_prices_up w products c ev :
  ∃ ev',
    fetch_prices w products (up c ev) =
    (Return match listed_prices w (dest c) products with
            | Some ds => backfill (build_priceMap ds) <$> products
            | None => products
            end, up c ev').
Proof.
  unfold fetch_prices, listed_prices.
  destruct (0 <? _)%nat; [|by eexists].
  unfold try_catch, bind at 1. unfold read_dest.
  unfold bind. rewrite apiRequest_up.
  change (dest (up c ev)) with (dest c).
  destruct (fetch w _) as [e|[body|]|]; simpl; try by eexists.
  destruct (Api.products body); by eexists.
Qed.

Lemma page_goto_up w url c ev :
  page_goto w url (up c ev) =
  (match goto w url with NavError e => Throw e | NavOk p => Return p end,
   up c (ev ++ [Navigated url])).
Proof.
  unfold page_goto, bind, record, up; simpl.
  rewrite <- app_assoc. by destruct (goto w url).
Qed.

Lemma backfill_id m p : Found.id (backfill m p) = Found.id p.
Proof.
  unfold backfill. destruct (m !! _); [|done]. by destruct (_ && _).
Qed.

(** What [search] does on a page that shows cards. *)
Lemma search_shown w query options c page :
  ready w c →
  goto w (search_url query options) = NavOk page →
  cardAppears page = true →
  ∃ ev,
    search w query options c =
    (let products :=
       extract <$> slice0 (cards page) (default 20 (limit options)) in
     Return match listed_prices w (dest c) products with
            | Some ds => backfill (build_priceMap ds) <$> products
            | None => products
            end, up c ev).
Proof.
  intros Hr Hg Hc. unfold search.
  rewrite (bind_step _ _ _ _ _ (init_ready _ _ Hr)).
  rewrite (bind_step _ _ _ page _ (eq_trans (page_goto_up _ _ _ _)
             ltac:(by rewrite Hg))).
  rewrite Hc. apply fetch_prices_up.
Qed.

(** C3, as [search] has it: a price read from the rendered card is kept as
    it was parsed, without a division; a found product whose card gave no
    price has the per-size product price of the descriptor divided by 100,
    for the last listed product with its id and a price that is not 0, and
    no price when the descriptor was not fetched or lists no such product. *)
Theorem search_price_sources w query options c page :
  ready w c →
  goto w (search_url query options) = NavOk page →
  cardAppears page = true →
  let shown := slice0 (cards page) (default 20 (limit options)) in
  ∃ ps c',
    search w query options c = (Return ps, c')
    ∧ length ps = length shown
    ∧ ∀ i card item,
        shown !! i = Some card → ps !! i = Some item →
        Found.id item = data_nm_id card
        ∧ Found.price item =
            match priceNum card with
            | Some n => Some (inject_Z n)
            | None =>
                ds ← listed_prices w (dest c) (extract <$> shown);
                div100 <$> descriptor_price ds (key_of_id (data_nm_id card))
            end.
Proof.
  intros Hr Hg Hc shown.
  destruct (search_shown _ _ _ _ _ Hr Hg Hc) as [ev Hs]. fold shown in Hs.
  simpl in Hs. eexists _, _. split; [exact Hs|].
  destruct (listed_prices w (dest c) (extract <$> shown)) as [ds|]; simpl.
  - split; [by rewrite !length_fmap|]. intros i card item Hi Hp.
    rewrite !list_lookup_fmap, Hi in Hp. injection Hp as <-.
    by rewrite backfill_id, backfill_price.
  - split; [by rewrite length_fmap|]. intros i card item Hi Hp.
    rewrite list_lookup_fmap, Hi in Hp. injection Hp as <-.
    split; [done|]. rewrite extract_price. by destruct (priceNum card).
Qed.

Lemma search_price_sources_witness :
  ∃ ps c',
    search Sample.world "kettle" (search_options None None None None None)
      constructor = (Return ps, c')
    ∧ length ps = 2%nat
    ∧ ∀ i card item,
        [Sample.priced; Sample.unpriced] !! i = Some card →
        ps !! i = Some item →
        Found.id item = data_nm_id card
        ∧ Found.price item =
            match priceNum card with
            | Some n => Some (inject_Z n)
            | None =>
                div100 <$> descriptor_price
                  [Sample.bare 102
                     (Some [Sample.one_size (Some 200000) (Some 150000)])]
                  (key_of_id (data_nm_id card))
            end.
Proof.
  refine (search_price_sources Sample.world "kettle"
            (search_options None None None None None) constructor
            (Sample.results true) _ _ _).
  - right; split; reflexivity.
  - reflexivity.
  - reflexivity.
Defined.

(** C3 as stated fails for a price read from the rendered card: the text
    [1 234] followed by the rouble sign gives the price 1234, which is not
    1234 divided by 100. *)
Lemma search_dom_price_not_divided :
  ∃ ps c' item,
    search Sample.world "kettle" (search_options None None None None None)
      constructor = (Return ps, c')
    ∧ ps !! 0%nat = Some item
    ∧ priceNum Sample.priced = Some 1234
    ∧ Found.price item = Some (inject_Z 1234)
    ∧ ¬ (inject_Z 1234 == div100 1234)%Q.
Proof.
  eexists _, _, _. split; [vm_compute; reflexivity|].
  split; [reflexivity|]. split; [reflexivity|]. split; [reflexivity|].
  by intros H%Qeq_bool_iff.
Qed.

(** ** Details, lists and the mirrors *)

(** The loop refines the contract of the resolver. *)
Lemma probe_up w productId hosts c ev :
  probe w productId hosts None (up c ev) =
  (Return (resolve w productId hosts),
   up c (ev ++ card_requests productId (asked w productId hosts))).
Proof.
  revert ev. induction hosts as [|b rest IH]; intros ev; simpl.
  { unfold card_requests. simpl. by rewrite app_nil_r. }
  unfold bind at 1, try_catch, bind at 1. rewrite apiRequest_up.
  unfold held_at, card_requests.
  destruct (fetch w (cardUrl b productId)) as [e|[body|]|]; simpl;
    [|done| |]; rewrite IH; unfold card_requests; by rewrite <- app_assoc.
Qed.

Lemma asked_prefix w productId hosts :
  asked w productId hosts `prefix_of` hosts.
Proof.
  induction hosts as [|b rest IH]; simpl; [done|].
  destruct (held_at w productId b).
  - by apply prefix_cons, prefix_nil.
  - by apply prefix_cons.
Qed.

Lemma asked_exhausted w productId hosts :
  resolve w productId hosts = None → asked w productId hosts = hosts.
Proof.
  induction hosts as [|b rest IH]; simpl; [done|].
  destruct (held_at w productId b); [done|]. intros H. by rewrite IH.
Qed.

(** The host that answers is the last one asked, and the ones asked before
    it hold nothing. *)
Lemma asked_resolved w productId hosts body :
  resolve w productId hosts = Some body →
  ∃ before b,
    asked w productId hosts = before ++ [b]
    ∧ held_at w productId b = Some body
    ∧ Forall (λ b', held_at w productId b' = None) before.
Proof.
  induction hosts as [|b rest IH]; simpl; [done|].
  destruct (held_at w productId b) as [body'|] eqn:Hb.
  - intros [= ->]. by exists [], b.
  - intros (before & b' & -> & ? & ?)%IH.
    exists (b :: before), b'. split; [done|]. split; [done|].
    by constructor.
Qed.

(** What [getProductDetails] does when the browser is or comes up. *)
Lemma getProductDetails_up w productId c :
  ready w c →
  getProductDetails w productId c =
  (match Api.first_item (detail_answer w (dest c) productId) with
   | Some product =>
       Return (with_discount
                 (assemble productId product (resolve w productId baskets)))
   | None => Throw (not_found productId)
   end,
   up c (started c ++ [Requested (detailUrl (dest c) productId)]
         ++ card_requests productId (asked w productId baskets))).
Proof.
  intros Hr. unfold getProductDetails.
  rewrite (bind_step _ _ _ _ _ (init_ready _ _ Hr)).
  unfold bind at 1, read_dest. unfold bind at 1, try_catch.
  rewrite apiRequest_up. change (dest (up c (started c))) with (dest c).
  assert (∀ d : option Api.Body,
    bind (probe w productId baskets None)
      (λ cardData,
         match Api.first_item d with
         | Some product =>
             ret (with_discount (assemble productId product cardData))
         | None => throw (not_found productId)
         end)
      (up c (started c ++ [Requested (detailUrl (dest c) productId)]))
    = (match Api.first_item d with
       | Some product =>
           Return (with_discount
                     (assemble productId product (resolve w productId baskets)))
       | None => Throw (not_found productId)
       end,
       up c (started c ++ [Requested (detailUrl (dest c) productId)]
             ++ card_requests productId (asked w productId baskets)))) as Hk.
  { intros d. rewrite (bind_step _ _ _ _ _ (probe_up _ _ _ _ _)).
    rewrite <- app_assoc. by destruct (Api.first_item d). }
  unfold detail_answer.
  destruct (fetch w (detailUrl (dest c) productId)) as [e|[body|]|];
    apply Hk.
Qed.

Lemma getProductsList_up w productIds c :
  ready w c →
  getProductsList w productIds c =
  (let url := listUrl (dest c) (join ";" (Number_toString <$> productIds)) in
   (match fetch w url with
    | Rejected e => Throw e
    | Resolved None => Throw (TypeError "products")
    | Resolved_falsy => Return []
    | Resolved (Some body) =>
        Return (default [] (map listed <$> Api.products body))
    end, up c (started c ++ [Requested url]))).
Proof.
  intros Hr. unfold getProductsList.
  rewrite (bind_step _ _ _ _ _ (init_ready _ _ Hr)).
  unfold bind at 1, read_dest. unfold bind. rewrite apiRequest_up.
  change (dest (up c (started c))) with (dest c). simpl.
  by destruct (fetch w _) as [e|[body|]|].
Qed.

(** C4: when the price/stock descriptor answers for an id and lists no
    product, [getProductDetails] throws its not-found error and
    [getProductsList] with that id returns the empty list. *)
Theorem nonexistent_id w productId c :
  ready w c →
  yields_no_item (fetch w (detailUrl (dest c) productId)) →
  yields_no_item (fetch w (listUrl (dest c) (Number_toString productId))) →
  (∃ c', getProductDetails w productId c = (Throw (not_found productId), c'))
  ∧ (∃ c', getProductsList w [productId] c = (Return [], c')).
Proof.
  intros Hr (bd & Hd & Hnd) (bl & Hl & Hnl). split.
  - rewrite (getProductDetails_up _ _ _ Hr). unfold detail_answer.
    rewrite Hd. unfold Api.first_item. simpl.
    destruct Hnd as [->| ->]; by eexists.
  - rewrite (getProductsList_up _ _ _ Hr). simpl. rewrite Hl.
    destruct Hnl as [->| ->]; by eexists.
Qed.

Lemma nonexistent_id_witness :
  (∃ c', getProductDetails Sample.barren 7 constructor
           = (Throw (not_found 7), c'))
  ∧ (∃ c', getProductsList Sample.barren [7] constructor = (Return [], c')).
Proof.
  apply (nonexistent_id Sample.barren 7 constructor).
  - right; split; reflexivity.
  - exists Sample.nothing. split; [reflexivity | left; reflexivity].
  - exists Sample.nothing. split; [reflexivity | left; reflexivity].
Defined.

(** ** The destination *)

(** C5: [setDestination] stores the last zone candidate of a successful geo
    lookup as [dest] and returns the resolved address, that zone code and
    all the candidates; when the lookup fails or has no candidate it leaves
    [dest] as it was and returns the failure object instead of throwing. *)
Theorem setDestination_outcome w address c :
  ready w c →
  ∃ c',
    let r := fetch w (geoUrl address) in
    match last (candidates r) with
    | Some d =>
        setDestination w address c =
          (Return (DestinationSet (resolved_address r) (Number_toString d)
                     (candidates r)), c')
        ∧ dest c' = Number_toString d
    | None =>
        setDestination w address c =
          (Return (DestinationFailed "Could not find destination"), c')
        ∧ dest c' = dest c
    end.
Proof.
  intros Hr. unfold setDestination.
  rewrite (bind_step _ _ _ _ _ (init_ready _ _ Hr)).
  unfold try_catch. cbv zeta.
  destruct (fetch w (geoUrl address)) as [e|[geo|]|] eqn:Hf.
  - rewrite (bind_Throw _ _ _ e _ (eq_trans (apiRequest_up _ _ _ _)
               ltac:(by rewrite Hf))).
    by eexists.
  - rewrite (bind_step _ _ _ (Truthy geo) _ (eq_trans (apiRequest_up _ _ _ _)
               ltac:(by rewrite Hf))).
    simpl. destruct (Api.destinations geo) as [ds|]; simpl; [|by eexists].
    destruct (last ds) as [d|] eqn:Hd; by eexists.
  - rewrite (bind_step _ _ _ Null _ (eq_trans (apiRequest_up _ _ _ _)
               ltac:(by rewrite Hf))).
    by eexists.
  - rewrite (bind_step _ _ _ Falsy _ (eq_trans (apiRequest_up _ _ _ _)
               ltac:(by rewrite Hf))).
    by eexists.
Qed.

Lemma setDestination_outcome_witness :
  ∃ c',
    setDestination Sample.world "Kazan" constructor =
      (Return (DestinationSet (Some "Kazan") "-2133462" [-1257786; -2133462]),
       c')
    ∧ dest c' = "-2133462".
Proof.
  apply (setDestination_outcome Sample.world "Kazan" constructor).
  right; split; reflexivity.
Defined.

(** ** Pages without cards *)

(** C6: when no product card shows up on the results page within the wait,
    [search] returns the empty list and [getFilters] returns an object with
    an empty [filters] list; neither throws. *)
Theorem no_cards_no_error w query options c page page' :
  ready w c →
  goto w (search_url query options) = NavOk page →
  cardAppears page = false →
  goto w (filtersUrl query) = NavOk page' →
  cardAppears page' = false →
  (∃ c', search w query options c = (Return [], c'))
  ∧ (∃ c', getFilters w query c = (Return (NoFilters []), c')).
Proof.
  intros Hr Hs Hc Hf Hc'. split.
  - unfold search. rewrite (bind_step _ _ _ _ _ (init_ready _ _ Hr)).
    rewrite (bind_step _ _ _ page _ (eq_trans (page_goto_up _ _ _ _)
               ltac:(by rewrite Hs))).
    rewrite Hc. by eexists.
  - unfold getFilters. rewrite (bind_step _ _ _ _ _ (init_ready _ _ Hr)).
    rewrite (bind_step _ _ _ page' _ (eq_trans (page_goto_up _ _ _ _)
               ltac:(by rewrite Hf))).
    rewrite Hc'. by eexists.
Qed.

Lemma no_cards_no_error_witness :
  (∃ c', search Sample.barren "phone" (search_options None None None None None)
           constructor = (Return [], c'))
  ∧ (∃ c', getFilters Sample.barren "phone" constructor
           = (Return (NoFilters []), c')).
Proof.
  apply (no_cards_no_error Sample.barren "phone" _ constructor
           (Sample.results false) (Sample.results false)).
  - right; split; reflexivity.
  - reflexivity.
  - reflexivity.
  - reflexivity.
  - reflexivity.
Defined.

(** ** Mirror resolution *)

(** C7: the path of the content descriptor has the two segments
    [floor(id / 100000)] and [floor(id / 1000)]; [getProductDetails] asks
    the hosts 1 to 36 in order, one request each, and stops at the first
    that holds a descriptor, which it uses; when none does, the call still
    returns the record, its description [null] and its characteristics
    empty, if the price/stock descriptor lists the product. *)
Theorem mirror_resolution w productId c :
  ready w c →
  (∀ b, cardUrl b productId =
        "https://basket-" +:+ padStart 2 "0" (pretty b) +:+ ".wbbasket.ru/vol"
        +:+ Number_toString (productId `div` 100000) +:+ "/part"
        +:+ Number_toString (productId `div` 1000) +:+ "/"
        +:+ Number_toString productId +:+ "/info/ru/card.json")
  ∧ baskets = seq 1 36
  ∧ ∃ o c',
      getProductDetails w productId c = (o, c')
      ∧ history c' =
          history c ++ started c
          ++ [Requested (detailUrl (dest c) productId)]
          ++ card_requests productId (asked w productId baskets)
      ∧ match resolve w productId baskets with
        | Some body =>
            ∃ before b,
              asked w productId baskets = before ++ [b]
              ∧ before ++ [b] `prefix_of` baskets
              ∧ Forall (λ b', held_at w productId b' = None) before
              ∧ held_at w productId b = Some body
              ∧ ∀ product,
                  Api.first_item (detail_answer w (dest c) productId)
                    = Some product →
                  o = Return (with_discount
                                (assemble productId product (Some body)))
        | None =>
            asked w productId baskets = baskets
            ∧ Forall (λ b', held_at w productId b' = None) baskets
            ∧ ∀ product,
                Api.first_item (detail_answer w (dest c) productId)
                  = Some product →
                ∃ r, o = Return r
                     ∧ description r = None
                     ∧ characteristics r = []
        end.
Proof.
  intros Hr. split; [done|]. split; [done|].
  rewrite (getProductDetails_up _ _ _ Hr). eexists _, _.
  split; [done|]. split; [done|].
  destruct (resolve w productId baskets) as [body|] eqn:Hres.
  - destruct (asked_resolved _ _ _ _ Hres) as (before & b & Ha & Hb & Hn).
    exists before, b. rewrite <- Ha.
    split; [done|]. split; [apply asked_prefix|].
    split; [done|]. split; [done|]. by intros product ->.
  - split; [by apply asked_exhausted|]. split.
    + clear -Hres. induction baskets as [|b rest IH]; [done|].
      simpl in Hres. destruct (held_at w productId b) eqn:Hb; [done|].
      constructor; auto.
    + intros product ->. eexists. split; [done|].
      by rewrite !(proj1 (with_discount_content _)),
        !(proj2 (with_discount_content _)).
Qed.

Lemma mirror_resolution_witness :
  ∃ r c',
    getProductDetails Sample.mirrorless 102 constructor = (Return r, c')
    ∧ length (history c') = 38%nat
    ∧ description r = None
    ∧ characteristics r = [].
Proof.
  destruct (mirror_resolution Sample.mirrorless 102 constructor)
    as (_ & _ & o & c' & H & Hh & Hm).
  - right; split; reflexivity.
  - assert (Hres : resolve Sample.mirrorless 102 baskets = None)
      by (vm_compute; reflexivity).
    rewrite Hres in Hm. destruct Hm as (Ha & _ & Hp).
    destruct (Hp _ eq_refl) as (r & -> & Hd & Hc).
    exists r, c'. split; [exact H|]. split; [|by split].
    rewrite Hh, Ha. reflexivity.
Defined.

(** ** The price range of a search *)

(** What [search] leaves in the history: the navigation to [search_url]
    comes first, after the launch if there was one, and a request to the
    list descriptor may follow. *)
Lemma search_navigates w query options c :
  ready w c →
  ∃ o rest,
    search w query options c =
      (o, up c (started c ++ Navigated (search_url query options) :: rest))
    ∧ (rest = [] ∨ ∃ ids, rest = [Requested (listUrl (dest c) ids)]).
Proof.
  intros Hr. unfold search.
  rewrite (bind_step _ _ _ _ _ (init_ready _ _ Hr)).
  destruct (goto w (search_url query options)) as [e|page] eqn:Hg.
  - rewrite (bind_Throw _ _ _ e _ (eq_trans (page_goto_up _ _ _ _)
               ltac:(by rewrite Hg))).
    eexists _, []. split; [done|by left].
  - rewrite (bind_step _ _ _ page _ (eq_trans (page_goto_up _ _ _ _)
               ltac:(by rewrite Hg))).
    destruct (cardAppears page); [|eexists _, []; split; [done|by left]].
    unfold fetch_prices.
    destruct (0 <? _)%nat; [|eexists _, []; split; [done|by left]].
    unfold try_catch, bind at 1, read_dest, bind. rewrite apiRequest_up.
    rewrite <- app_assoc. change (dest (up c _)) with (dest c).
    destruct (fetch w _) as [e|[body|]|]; simpl;
      [| destruct (Api.products body) | |];
      eexists _, [_]; (split; [reflexivity|]); right; eauto.
Qed.

(** C9, as [search] builds its URL: the price range token is appended
    exactly when [priceMin] or [priceMax] is supplied and is not 0; its
    lower bound is [priceMin] times 100, or 0 when [priceMin] is absent, and
    its upper bound is [priceMax] times 100, or 999999999 times 100 when
    [priceMax] is absent or 0; the two are joined by an encoded semicolon. *)
Theorem price_range_token w query options c :
  ready w c →
  let given (o : option Z) := ∃ n, o = Some n ∧ n ≠ 0 in
  let lo := default 0 (priceMin options) in
  let hi := match priceMax options with
            | Some n => if n =? 0 then 999999999 else n
            | None => 999999999
            end in
  ∃ o c' rest token,
    search w query options c = (o, c')
    ∧ history c' = history c ++ started c
                   ++ Navigated (searchUrl query
                        (default "popular" (sort options))
                        (default 1 (page options)) +:+ token) :: rest
    ∧ (given (priceMin options) ∨ given (priceMax options) →
       token = "&priceU=" +:+ Number_toString (lo * 100) +:+ "%3B"
               +:+ Number_toString (hi * 100))
    ∧ (¬ (given (priceMin options) ∨ given (priceMax options)) → token = "").
Proof.
  intros Hr given lo hi.
  destruct (search_navigates w query options c Hr) as (o & rest & Hs & _).
  eexists o, _, rest, (priceU (priceMin options) (priceMax options)).
  split; [exact Hs|]. split; [done|].
  assert (Hgiven : ∀ o, truthy_opt truthy_num o = true ↔ given o).
  { intros [n|]; unfold given, truthy_num; simpl.
    - rewrite negb_true_iff, Z.eqb_neq. split; [eauto|].
      by intros (? & [= <-] & ?).
    - split; [done|]. by intros (? & ? & _). }
  assert (Hlo : or_num (priceMin options) 0 = lo).
  { unfold or_num, lo, truthy_num. destruct (priceMin options) as [n|]; [|done].
    simpl. by destruct (Z.eqb_spec n 0). }
  assert (Hhi : or_num (priceMax options) 999999999 = hi).
  { unfold or_num, hi, truthy_num. destruct (priceMax options) as [n|]; [|done].
    by destruct (n =? 0). }
  unfold priceU. rewrite Hlo, Hhi.
  destruct (truthy_opt truthy_num (priceMin options)
            || truthy_opt truthy_num (priceMax options)) eqn:Ht.
  - split; [done|]. intros Hn. exfalso. apply Hn.
    apply orb_true_iff in Ht as [Ht|Ht]; apply Hgiven in Ht; auto.
  - split; [|done]. apply orb_false_iff in Ht as [Ha Hb].
    intros [Hg|Hg]; apply Hgiven in Hg; congruence.
Qed.

Lemma price_range_token_witness :
  ∃ o c' rest token,
    search Sample.world "kettle"
      (search_options None None (Some 500) None None) constructor = (o, c')
    ∧ history c' =
        [Launched;
         Navigated ("https://www.wildberries.ru/catalog/0/search.aspx?search=kettle&sort=popular&page=1"
                    +:+ token)] ++ rest
    ∧ token = "&priceU=50000%3B99999999900".
Proof.
  destruct (price_range_token Sample.world "kettle"
              (search_options None None (Some 500) None None) constructor)
    as (o & c' & rest & token & H & Hh & Ht & _).
  - right; split; reflexivity.
  - exists o, c', rest, token. split; [exact H|]. split; [exact Hh|].
    apply Ht. left. exists 500. split; [reflexivity | lia].
Defined.

(** C9 as stated fails for a supplied bound of 0: with [priceMin] 0 and no
    [priceMax] the search navigates to the URL without a price range. *)
Lemma price_range_token_zero :
  ∃ o c',
    search Sample.world "kettle"
      (search_options None None (Some 0) None None) constructor = (o, c')
    ∧ history c' !! 1%nat =
        Some (Navigated "https://www.wildberries.ru/catalog/0/search.aspx?search=kettle&sort=popular&page=1").
Proof. eexists _, _. split; [vm_compute; reflexivity | reflexivity]. Qed.

(** ** Batches over HTTP *)

(** A request is always answered or skipped, never thrown out of; the one
    that is skipped is the [notifications/initialized] notification. *)
Lemma handleJsonRpcRequest_Return w request c :
  ∃ o c',
    Http.handleJsonRpcRequest w request c = (Return o, c')
    ∧ (o = None ↔ Http.method request = "notifications/initialized").
Proof.
  unfold Http.handleJsonRpcRequest, try_catch.
  destruct (String.eqb_spec (Http.method request) "initialize") as [->|_].
  { eexists _, _. split; [done|]. by split. }
  destruct (String.eqb_spec (Http.method request) "tools/list") as [->|_].
  { eexists _, _. split; [done|]. by split. }
  destruct (String.eqb_spec (Http.method request) "tools/call") as [->|_].
  { destruct (Http.params request) as [tc|].
    - unfold bind. destruct (Http.call w tc c) as [[v|e] c1];
        eexists _, _; (split; [done|]); by split.
    - eexists _, _. split; [done|]. by split. }
  destruct (String.eqb_spec (Http.method request) "notifications/initialized")
    as [->|Hn].
  { eexists _, _. split; [done|]. by split. }
  eexists _, _. split; [done|]. by split.
Qed.

(** The loop refines the answers of the batch. *)
Lemma handle_all_answers env i requests responses c :
  Http.handle_all env i requests responses c =
  (responses ++ given_answers (answers env i requests c).1,
   (answers env i requests c).2).
Proof.
  revert i responses c.
  induction requests as [|request rest IH]; intros i responses c; simpl.
  { by rewrite app_nil_r. }
  destruct (handleJsonRpcRequest_Return (Http.world_at env i) request c)
    as (o & c1 & -> & _).
  destruct (answers env (S i) rest c1) as [os c2] eqn:Ha.
  destruct o as [response|]; rewrite IH, Ha; simpl; [|done].
  by rewrite <- app_assoc.
Qed.

Lemma answers_length env i requests c :
  length (answers env i requests c).1 = length requests.
Proof.
  revert i c. induction requests as [|request rest IH]; intros i c; simpl;
    [done|].
  destruct (Http.handleJsonRpcRequest _ request c) as [o c1].
  specialize (IH (S i) c1).
  destruct (answers env (S i) rest c1) as [os c2]. simpl in *. by rewrite IH.
Qed.

Lemma answers_skipped env i requests c k request :
  requests !! k = Some request →
  (answers env i requests c).1 !! k = Some None
  ↔ Http.method request = "notifications/initialized".
Proof.
  revert i c k. induction requests as [|r rest IH]; intros i c k; [done|].
  simpl.
  destruct (handleJsonRpcRequest_Return (Http.world_at env i) r c)
    as (o & c1 & -> & Ho).
  specialize (IH (S i) c1).
  destruct (answers env (S i) rest c1) as [os c2]. simpl in *.
  destruct k as [|k]; simpl.
  - intros [= ->]. rewrite <- Ho. split; [by intros [= ->]|by intros ->].
  - apply IH.
Qed.

(** C8: the responses to a batch are the answers to its requests in the
    order of arrival, each request handled on its own, without the
    [notifications/initialized] notifications, which get no answer; when
    the batch has an [initialize] request and the POST carried no session
    header, the response carries a freshly generated [Mcp-Session-Id], which
    is also stored. *)
Theorem batch_responses env sessionId requests srv :
  let res := (Http.post_mcp env sessionId (Http.Batch requests) srv).1 in
  let srv' := (Http.post_mcp env sessionId (Http.Batch requests) srv).2 in
  let answered := (answers env 0 requests (Http.wbClient srv)).1 in
  responses_sent (Http.sent res) = given_answers answered
  ∧ length answered = length requests
  ∧ (∀ k request, requests !! k = Some request →
       answered !! k = Some None
       ↔ Http.method request = "notifications/initialized")
  ∧ (existsb Http.is_initialize requests = true → sessionId = None →
       Http.Mcp_Session_Id res
         = Some (Http.generateSessionId (Http.random1 env) (Http.random2 env))
       ∧ Http.sessions srv'
           !! Http.generateSessionId (Http.random1 env) (Http.random2 env)
         = Some (Http.now env)).
Proof.
  intros res srv' answered. subst res srv'. unfold Http.post_mcp.
  rewrite handle_all_answers. fold answered. simpl.
  split; [|split; [apply answers_length|split; [apply answers_skipped|]]].
  - by destruct (given_answers answered) as [|r [|r' rs]].
  - intros -> ->. simpl.
    destruct (given_answers answered) as [|r [|r' rs]]; simpl;
      by rewrite lookup_insert_eq.
Qed.

Lemma batch_responses_witness :
  let batch :=
    [ {| Http.method := "initialize"; Http.params := None;
         Http.id := Some (Http.IdNum 1) |};
      {| Http.method := "notifications/initialized"; Http.params := None;
         Http.id := None |};
      {| Http.method := "tools/list"; Http.params := None;
         Http.id := Some (Http.IdNum 2) |} ] in
  let env :=
    {| Http.world_at := λ _, Sample.world;
       Http.random1 := "0.4fzyo82mvyr"; Http.random2 := "0.k2j9x0q1abc";
       Http.now := 1700000000000 |} in
  let srv := {| Http.wbClient := constructor; Http.sessions := ∅ |} in
  Http.Mcp_Session_Id (Http.post_mcp env None (Http.Batch batch) srv).1
    = Some "mcp-4fzyo82mvyrk2j9x0q1abc"
  ∧ length (responses_sent
              (Http.sent (Http.post_mcp env None (Http.Batch batch) srv).1))
    = 2%nat.
Proof.
  intros batch env srv.
  destruct (batch_responses env None batch srv) as (Hs & _ & _ & Hm).
  split.
  - exact (proj1 (Hm eq_refl eq_refl)).
  - rewrite Hs. reflexivity.
Defined.

(** ** The default destination *)

(** A browser that does not come up: [init] throws, and the most it leaves
    behind is the launch of a browser whose warm-up failed. *)
Lemma ready_or_not w c :
  ready w c
  ∨ ∃ e c1, init w c = (Throw e, c1)
            ∧ dest c1 = dest c
            ∧ isInitialized c1 = isInitialized c
            ∧ (history c1 = history c ∨ history c1 = history c ++ [Launched]).
Proof.
  unfold ready, init. destruct (isInitialized c) eqn:Hi; [by left; left|].
  destruct (launch w) as [e|].
  { right. exists e, c. split_and!; auto. }
  destruct (warm_up w) as [e|]; [|by left; right].
  right. eexists e, _. split_and!; simpl; auto.
Qed.

Lemma started_zone d c : Forall (zone_request d) (started c).
Proof. unfold started. destruct (isInitialized c); by repeat constructor. Qed.

Lemma list_zone d ids : zone_request d (Requested (listUrl d ids)).
Proof. intros _. exists "list", ids. split; [by left|reflexivity]. Qed.

Lemma detail_zone d productId :
  zone_request d (Requested (detailUrl d productId)).
Proof.
  intros _. exists "detail", (Number_toString productId).
  split; [by right|reflexivity].
Qed.

Lemma card_zone d b productId :
  zone_request d (Requested (cardUrl b productId)).
Proof.
  assert (∃ rest, cardUrl b productId = "https://basket-" +:+ rest) as [? ->]
    by (by eexists).
  intros H. discriminate H.
Qed.

Lemma geo_zone d address : zone_request d (Requested (geoUrl address)).
Proof.
  assert (∃ rest, geoUrl address =
            "https://www.wildberries.ru/__internal/user-geo-data/" +:+ rest)
    as [? ->] by (by eexists).
  intros H. discriminate H.
Qed.

Lemma card_requests_zone d productId hosts :
  Forall (zone_request d) (card_requests productId hosts).
Proof.
  unfold card_requests. apply Forall_fmap, Forall_forall. intros b _.
  apply card_zone.
Qed.

Lemma setDestination_up w address c :
  ready w c →
  ∃ o c',
    setDestination w address c = (o, c')
    ∧ history c' = history c ++ started c ++ [Requested (geoUrl address)]
    ∧ (dest c' = dest c ∨ ∃ a d ds, o = Return (DestinationSet a d ds)).
Proof.
  intros Hr. unfold setDestination.
  rewrite (bind_step _ _ _ _ _ (init_ready _ _ Hr)).
  unfold try_catch. cbv zeta.
  destruct (fetch w (geoUrl address)) as [e|[geo|]|] eqn:Hf.
  - rewrite (bind_Throw _ _ _ e _ (eq_trans (apiRequest_up _ _ _ _)
               ltac:(by rewrite Hf))).
    eexists _, _. split; [done|]. split; [done|by left].
  - rewrite (bind_step _ _ _ (Truthy geo) _ (eq_trans (apiRequest_up _ _ _ _)
               ltac:(by rewrite Hf))).
    simpl. destruct (Api.destinations geo) as [ds|]; simpl;
      [|eexists _, _; split; [done|]; split; [done|by left]].
    destruct (last ds) as [d|] eqn:Hd;
      eexists _, _; (split; [done|]); (split; [done|]); [right|left]; eauto.
  - rewrite (bind_step _ _ _ Null _ (eq_trans (apiRequest_up _ _ _ _)
               ltac:(by rewrite Hf))).
    eexists _, _. split; [done|]. split; [done|by left].
  - rewrite (bind_step _ _ _ Falsy _ (eq_trans (apiRequest_up _ _ _ _)
               ltac:(by rewrite Hf))).
    eexists _, _. split; [done|]. split; [done|by left].
Qed.

Lemma getFilters_up w query c :
  ready w c →
  ∃ o,
    getFilters w query c =
      (o, up c (started c ++ [Navigated (filtersUrl query)])).
Proof.
  intros Hr. unfold getFilters.
  rewrite (bind_step _ _ _ _ _ (init_ready _ _ Hr)).
  destruct (goto w (filtersUrl query)) as [e|page] eqn:Hg.
  - rewrite (bind_Throw _ _ _ e _ (eq_trans (page_goto_up _ _ _ _)
               ltac:(by rewrite Hg))).
    by eexists.
  - rewrite (bind_step _ _ _ page _ (eq_trans (page_goto_up _ _ _ _)
               ltac:(by rewrite Hg))).
    destruct (cardAppears page); by eexists.
Qed.

(** One tool call: what it adds to the history and what it does to the
    destination. *)
Lemma call_effect w tc c o c' :
  Http.call w tc c = (o, c') →
  ∃ ev,
    history c' = history c ++ ev
    ∧ Forall (zone_request (dest c)) ev
    ∧ (dest c' = dest c ∨ changes_destination o).
Proof.
  destruct (ready_or_not w c) as [Hr|(e & c1 & Hi & Hd1 & _ & Hh1)].
  - destruct tc as [query sort page pmin pmax lim|productId|productIds
                   |address|query|name]; simpl; unfold bind.
    + destruct (search_navigates w query
                  (search_options sort page pmin pmax lim) c Hr)
        as (o1 & rest & -> & Hz).
      intros H. exists (started c ++ Navigated
        (search_url query (search_options sort page pmin pmax lim)) :: rest).
      assert (c' = up c (started c ++ Navigated
        (search_url query (search_options sort page pmin pmax lim)) :: rest))
        as -> by (by destruct o1; injection H as _ <-).
      split; [done|]. split; [|by left].
      apply Forall_app. split; [apply started_zone|]. constructor; [done|].
      destruct Hz as [->|[ids ->]]; repeat constructor. apply list_zone.
    + rewrite (getProductDetails_up _ _ _ Hr). intros H.
      exists (started c ++ [Requested (detailUrl (dest c) productId)]
              ++ card_requests productId (asked w productId baskets)).
      assert (c' = up c (started c
                ++ [Requested (detailUrl (dest c) productId)]
                ++ card_requests productId (asked w productId baskets)))
        as -> by (by destruct (Api.first_item _); injection H as _ <-).
      split; [done|]. split; [|by left].
      apply Forall_app. split; [apply started_zone|].
      apply Forall_app. split; [|apply card_requests_zone].
      constructor; [apply detail_zone|constructor].
    + rewrite (getProductsList_up _ _ _ Hr). cbv zeta. intros H.
      exists (started c ++ [Requested (listUrl (dest c)
                (join ";" (Number_toString <$> productIds)))]).
      assert (c' = up c (started c ++ [Requested (listUrl (dest c)
                (join ";" (Number_toString <$> productIds)))]))
        as -> by (by destruct (fetch w _) as [?|[?|]|]; injection H as _ <-).
      split; [done|]. split; [|by left].
      apply Forall_app. split; [apply started_zone|].
      constructor; [apply list_zone|constructor].
    + destruct (setDestination_up w address c Hr)
        as (o1 & c1 & -> & Hh & Hd).
      intros H. exists (started c ++ [Requested (geoUrl address)]).
      assert (c' = c1) as -> by (by destruct o1; injection H as _ <-).
      split; [done|]. split.
      * apply Forall_app. split; [apply started_zone|].
        constructor; [apply geo_zone|constructor].
      * destruct Hd as [Hd|(a & d & ds & ->)]; [by left|right].
        injection H as <-. by exists a, d, ds.
    + destruct (getFilters_up w query c Hr) as [o1 ->]. intros H.
      exists (started c ++ [Navigated (filtersUrl query)]).
      assert (c' = up c (started c ++ [Navigated (filtersUrl query)]))
        as -> by (by destruct o1; injection H as _ <-).
      split; [done|]. split; [|by left].
      apply Forall_app. split; [apply started_zone|by repeat constructor].
    + intros [= _ <-]. exists []. rewrite app_nil_r.
      split; [done|]. split; [constructor|by left].
  - intros H.
    assert (c' = c1 ∨ c' = c) as Hc'.
    { destruct tc; unfold Http.call in H;
        [rewrite (bind_Throw _ _ _ e c1) in H
        |rewrite (bind_Throw _ _ _ e c1) in H
        |rewrite (bind_Throw _ _ _ e c1) in H
        |rewrite (bind_Throw _ _ _ e c1) in H
        |rewrite (bind_Throw _ _ _ e c1) in H
        |right; by injection H as _ <-];
        try (left; by injection H as _ <-);
        by apply bind_Throw. }
    destruct Hc' as [->| ->].
    + destruct Hh1 as [Hh1|Hh1].
      * exists []. rewrite app_nil_r.
        split; [done|]. split; [constructor|by left].
      * exists [Launched]. split; [done|].
        split; [by repeat constructor|by left].
    + exists []. rewrite app_nil_r.
      split; [done|]. split; [constructor|by left].
Qed.

Lemma zone_history c :
  before_destination_change c →
  dest c = "-1255987" ∧ Forall (zone_request "-1255987") (history c).
Proof.
  induction 1 as [|w tc c o c' _ [IHd IHh] Hc Hn]; [by split|].
  destruct (call_effect _ _ _ _ _ Hc) as (ev & -> & Hz & [Hd|Hd]); [|done].
  split; [congruence|]. apply Forall_app. split; [done|]. by rewrite <- IHd.
Qed.

(** C10: a new client has the zone code [-1255987]; as long as no call has
    changed the destination the client keeps it, every request it has sent
    to the price/stock descriptor has [dest=-1255987] in its query, and so
    do the requests of the next [getProductDetails], [getProductsList] and
    [search]. *)
Theorem default_zone c :
  before_destination_change c →
  dest constructor = "-1255987"
  ∧ dest c = "-1255987"
  ∧ Forall (zone_request "-1255987") (history c)
  ∧ ∀ w, ready w c →
      (∀ productId, ∃ o c',
         getProductDetails w productId c = (o, c')
         ∧ Requested
             ("https://www.wildberries.ru/__internal/u-card/cards/v4/detail?appType=1&curr=rub&dest=-1255987&spp=30&lang=ru&nm="
              +:+ Number_toString productId)
           ∈ history c')
      ∧ (∀ productIds, ∃ o c',
           getProductsList w productIds c = (o, c')
           ∧ Requested
               ("https://www.wildberries.ru/__internal/u-card/cards/v4/list?appType=1&curr=rub&dest=-1255987&spp=30&lang=ru&nm="
                +:+ join ";" (Number_toString <$> productIds))
             ∈ history c')
      ∧ (∀ query options, ∃ o c' rest,
           search w query options c = (o, c')
           ∧ history c' = history c ++ started c
                          ++ Navigated (search_url query options) :: rest
           ∧ (rest = []
              ∨ ∃ ids,
                  rest = [Requested
                    ("https://www.wildberries.ru/__internal/u-card/cards/v4/list?appType=1&curr=rub&dest=-1255987&spp=30&lang=ru&nm="
                     +:+ ids)])).
Proof.
  intros Hc. destruct (zone_history c Hc) as [Hd Hh].
  split; [done|]. split; [done|]. split; [done|].
  intros w Hr. split; [|split].
  - intros productId. rewrite (getProductDetails_up _ _ _ Hr), Hd.
    eexists _, _. split; [done|]. cbn [history up].
    change (Requested (_ +:+ Number_toString productId))
      with (Requested (detailUrl "-1255987" productId)).
    set_solver.
  - intros productIds. rewrite (getProductsList_up _ _ _ Hr), Hd.
    eexists _, _. split; [done|]. cbn [history up].
    change (Requested (_ +:+ join ";" (Number_toString <$> productIds)))
      with (Requested (listUrl "-1255987"
                         (join ";" (Number_toString <$> productIds)))).
    set_solver.
  - intros query options.
    destruct (search_navigates w query options c Hr) as (o & rest & Hs & Hz).
    rewrite Hd in Hz. eexists o, _, rest. split; [exact Hs|].
    split; [done|]. destruct Hz as [->|[ids ->]]; [by left|right].
    by exists ids.
Qed.

Lemma default_zone_witness :
  dest (getProductsList Sample.world [102] constructor).2 = "-1255987"
  ∧ Forall (zone_request "-1255987")
      (history (getProductsList Sample.world [102] constructor).2)
  ∧ history (getProductsList Sample.world [102] constructor).2
    = [Launched;
       Requested "https://www.wildberries.ru/__internal/u-card/cards/v4/list?appType=1&curr=rub&dest=-1255987&spp=30&lang=ru&nm=102"].
Proof.
  assert (H : before_destination_change
                (getProductsList Sample.world [102] constructor).2).
  { apply (after_call Sample.world (wb_products_list [102]) constructor
             (Http.call Sample.world (wb_products_list [102]) constructor).1).
    - apply fresh_client.
    - reflexivity.
    - intros (a & d & ds & Ho). vm_compute in Ho. discriminate Ho. }
  destruct (default_zone _ H) as (_ & Hd & Hh & _).
  split; [exact Hd|]. split; [exact Hh|]. reflexivity.
Defined.

(** ** The primitives on examples *)

Example encodeURIComponent_query :
  encodeURIComponent "iPhone 15/a&b" = "iPhone%2015%2Fa%26b".
Proof. reflexivity. Qed.

Example priceNum_wallet_first : priceNum Sample.priced = Some 1234.
Proof. reflexivity. Qed.

Example digit_runs_two :
  digit_runs [49; 32; 50; 51; 52; 160; 8381; 32; 53; 54]%N None
  = [[49; 32; 50; 51; 52; 160]; [53; 54]]%N.
Proof. reflexivity. Qed.

Example cut_at_slash_line :
  cut_at_slash [65; 32; 32; 47; 66; 10; 67]%N [] = [65; 10; 67]%N.
Proof. reflexivity. Qed.

Example slice0_from_the_end : slice0 [1; 2; 3] (-1) = [1; 2].
Proof. reflexivity. Qed.

Example cardUrl_472014502 :
  cardUrl 7 472014502
  = "https://basket-07.wbbasket.ru/vol4720/part472014/472014502/info/ru/card.json".
Proof. reflexivity. Qed.

Example Math_round_tie :
  Math_round 2.5 = 3%float ∧ Math_round (-2.5) = (-2)%float
  ∧ Math_round (-0.25) = (-0)%float ∧ Math_round 0.25 = 0%float.
Proof. split_and!; vm_compute; reflexivity. Qed.

Example Math_round_below_half :
  Math_round (double (9007199254740991 # 18014398509481984)) = 0%float
  ∧ Math_round (Z2F 9007199254740991) = Z2F 9007199254740991
  ∧ Math_round nan = nan ∧ Math_round infinity = infinity.
Proof. split_and!; vm_compute; reflexivity. Qed.

Example search_request_text :
  requests_in (history
    (search Sample.world "kettle" (search_options None None None None None)
       constructor).2)
  = [Requested "https://www.wildberries.ru/__internal/u-card/cards/v4/list?appType=1&curr=rub&dest=-1255987&spp=30&lang=ru&nm=102"].
Proof. reflexivity. Qed.

Example generateSessionId_cut :
  Http.generateSessionId "0.4fzyo82mvyrabcdefgh" "0.k2"
  = "mcp-4fzyo82mvyrabk2".
Proof. reflexivity. Qed.

(** * Further properties of the code *)

#[local] Set Warnings "-clear-no-such-hyp".

(** ** The browser *)

Lemma init_down w c e :
  isInitialized c = false → launch w = Some e → init w c = (Throw e, c).
Proof. unfold init. by intros -> ->. Qed.

(** When the browser cannot be launched, a call of any of the five tools
    throws the launch error and leaves the client as it was, with nothing
    added to its history; the stdio server reports that error as a failed
    result. *)
Theorem launch_failure w tc c e :
  isInitialized c = false →
  launch w = Some e →
  (∀ name, tc ≠ other_tool name) →
  Http.call w tc c = (Throw e, c)
  ∧ Stdio.callTool w tc c
    = (Return {| Stdio.content := Stdio.Failed (message e);
                 Stdio.isError := true |}, c).
Proof.
  intros Hi Hl Hn. pose proof (init_down _ _ _ Hi Hl) as Hd.
  assert (H : Http.call w tc c = (Throw e, c)).
  { destruct tc as [| | | | |n]; [| | | | |by destruct (Hn n)];
      unfold Http.call; apply bind_Throw; by apply bind_Throw. }
  split; [done|].
  destruct tc as [| | | | |n]; [| | | | |by destruct (Hn n)];
    unfold Stdio.callTool, try_catch; unfold Http.call in H;
    unfold bind in *;
    match goal with
    | H : match ?m with _ => _ end = _ |- context [?m] =>
        destruct m as [[?|?] ?]; [discriminate|by injection H as -> ->]
    end.
Qed.

Lemma launch_failure_witness :
  Http.call
    {| launch := Some {| message := "Executable doesn't exist" |};
       warm_up := None;
       goto := goto Sample.world; fetch := fetch Sample.world |}
    (wb_get_filters "phone") constructor
  = (Throw {| message := "Executable doesn't exist" |}, constructor).
Proof.
  refine (proj1 (launch_failure _ (wb_get_filters "phone") constructor _
                   _ _ _)).
  - reflexivity.
  - reflexivity.
  - intros name. discriminate.
Defined.

Lemma launches_app h1 h2 : launches (h1 ++ h2) = (launches h1 + launches h2)%nat.
Proof. unfold launches. by rewrite filter_app, length_app. Qed.

Lemma launches_started c :
  launches (started c) = if isInitialized c then 0%nat else 1%nat.
Proof. unfold started. by destruct (isInitialized c). Qed.

Lemma launches_card_requests productId hosts :
  launches (card_requests productId hosts) = 0%nat.
Proof. induction hosts as [|b rest IH]; [done|]. exact IH. Qed.

Lemma setDestination_state w address c :
  ready w c →
  ∃ o d,
    setDestination w address c =
    (o, {| isInitialized := true; dest := d;
           history := history c ++ started c ++ [Requested (geoUrl address)] |}).
Proof.
  intros Hr. unfold setDestination.
  rewrite (bind_step _ _ _ _ _ (init_ready _ _ Hr)).
  unfold try_catch. cbv zeta.
  destruct (fetch w (geoUrl address)) as [e|[geo|]|] eqn:Hf.
  - rewrite (bind_Throw _ _ _ e _ (eq_trans (apiRequest_up _ _ _ _)
               ltac:(by rewrite Hf))).
    by eexists _, _.
  - rewrite (bind_step _ _ _ (Truthy geo) _ (eq_trans (apiRequest_up _ _ _ _)
               ltac:(by rewrite Hf))).
    simpl. destruct (Api.destinations geo) as [ds|]; simpl; [|by eexists _, _].
    destruct (last ds) as [d|] eqn:Hd; by eexists _, _.
  - rewrite (bind_step _ _ _ Null _ (eq_trans (apiRequest_up _ _ _ _)
               ltac:(by rewrite Hf))).
    by eexists _, _.
  - rewrite (bind_step _ _ _ Falsy _ (eq_trans (apiRequest_up _ _ _ _)
               ltac:(by rewrite Hf))).
    by eexists _, _.
Qed.

(** A call of one of the five tools on a client whose browser is or comes
    up leaves the browser up after events none of which is a launch, the
    launch it may have needed apart. *)
Lemma call_state w tc c o c' :
  ready w c →
  (∀ name, tc ≠ other_tool name) →
  Http.call w tc c = (o, c') →
  ∃ d ev,
    c' = {| isInitialized := true; dest := d;
            history := history c ++ started c ++ ev |}
    ∧ launches ev = 0%nat.
Proof.
  intros Hr Hn H.
  destruct tc as [query sort page pmin pmax lim|productId|productIds
                 |address|query|n]; unfold Http.call, bind in H;
    [| | | | |by destruct (Hn n)].
  - destruct (search_navigates w query
                (search_options sort page pmin pmax lim) c Hr)
      as (o1 & rest & Hs & Hz).
    rewrite Hs in H. exists (dest c), (Navigated
      (search_url query (search_options sort page pmin pmax lim)) :: rest).
    split; [by destruct o1; injection H as _ <-|].
    by destruct Hz as [->|[ids ->]].
  - rewrite (getProductDetails_up _ _ _ Hr) in H.
    exists (dest c), ([Requested (detailUrl (dest c) productId)]
      ++ card_requests productId (asked w productId baskets)).
    split; [by destruct (Api.first_item _); injection H as _ <-|].
    by rewrite launches_app, launches_card_requests.
  - rewrite (getProductsList_up _ _ _ Hr) in H. cbv zeta in H.
    exists (dest c), [Requested (listUrl (dest c)
              (join ";" (Number_toString <$> productIds)))].
    split; [|done].
    by destruct (fetch w _) as [?|[?|]|]; injection H as _ <-.
  - destruct (setDestination_state w address c Hr) as (o1 & d & Hs).
    rewrite Hs in H. exists d, [Requested (geoUrl address)].
    split; [by destruct o1; injection H as _ <-|done].
  - destruct (getFilters_up w query c Hr) as [o1 Hs].
    rewrite Hs in H. exists (dest c), [Navigated (filtersUrl query)].
    split; [by destruct o1; injection H as _ <-|done].
Qed.

(** A call of one of the five tools whose [init] throws stops there. *)
Lemma call_down w tc c e c1 o c' :
  init w c = (Throw e, c1) →
  (∀ name, tc ≠ other_tool name) →
  Http.call w tc c = (o, c') →
  o = Throw e ∧ c' = c1.
Proof.
  intros Hi Hn H.
  assert (Http.call w tc c = (Throw e, c1)) as H'.
  { destruct tc as [| | | | |n]; [| | | | |by destruct (Hn n)];
      unfold Http.call; apply bind_Throw; by apply bind_Throw. }
  rewrite H' in H. by injection H as <- <-.
Qed.

(** The browser is launched by a call exactly when the client is not
    initialized, the call is one of the five tools and the launch succeeds;
    the client is initialized after the call when it was before, or when
    that launch and the warm-up after it both succeed.  So a launch whose
    warm-up fails is counted, and leaves the client uninitialized: the next
    call launches a browser again. *)
Theorem launches_per_call w tc c o c' :
  Http.call w tc c = (o, c') →
  let launching :=
    negb (isInitialized c)
    && match tc with other_tool _ => false | _ => true end
    && match launch w with None => true | Some _ => false end in
  launches (history c') =
    (launches (history c) + if launching then 1 else 0)%nat
  ∧ isInitialized c' =
      isInitialized c
      || launching && match warm_up w with None => true | Some _ => false end.
Proof.
  intros H launching. subst launching.
  assert ((∃ n, tc = other_tool n) ∨ ∀ name, tc ≠ other_tool name)
    as [[n ->]|Hn'] by (destruct tc; eauto).
  { injection H as _ <-. rewrite andb_false_r, orb_false_r. simpl.
    split; [lia|done]. }
  assert (match tc with other_tool _ => false | _ => true end = true) as ->
    by (destruct tc as [| | | | |n]; try done; by destruct (Hn' n)).
  rewrite andb_true_r.
  destruct (isInitialized c) eqn:Hi; simpl.
  - destruct (call_state w tc c o c' (or_introl Hi) Hn' H)
      as (d & ev & -> & Hev).
    simpl. unfold started. rewrite Hi, !launches_app, Hev. simpl.
    split; [lia|done].
  - destruct (launch w) as [e|] eqn:Hl; simpl.
    { assert (init w c = (Throw e, c)) as Hd
        by (unfold init; by rewrite Hi, Hl).
      destruct (call_down w tc c e c o c' Hd Hn' H) as [_ ->].
      split; [lia|done]. }
    destruct (warm_up w) as [e|] eqn:Hw; simpl.
    + assert (init w c =
                (Throw e, {| isInitialized := false; dest := dest c;
                             history := history c ++ [Launched] |})) as Hd
        by (unfold init; by rewrite Hi, Hl, Hw).
      destruct (call_down w tc c e _ o c' Hd Hn' H) as [_ ->].
      simpl. by rewrite launches_app.
    + destruct (call_state w tc c o c' (or_intror (conj Hl Hw)) Hn' H)
        as (d & ev & -> & Hev).
      simpl. unfold started. rewrite Hi, !launches_app, Hev. simpl.
      split; [lia|done].
Qed.

Lemma launches_per_call_witness :
  let w := {| launch := None;
              warm_up := Some {| message := "Timeout 60000ms exceeded." |};
              goto := goto Sample.world; fetch := fetch Sample.world |} in
  let c := (Http.call w (wb_products_list [102]) constructor).2 in
  let c' := (Http.call w (wb_get_filters "phone") c).2 in
  launches (history c') = 2%nat ∧ isInitialized c' = false.
Proof.
  intros w c c'.
  exact (launches_per_call w (wb_get_filters "phone") c
           (Http.call w (wb_get_filters "phone") c).1 c' eq_refl).
Defined.

(** ** The two transports *)

(** The stdio handler never throws, and it reports what the HTTP server's
    dispatch does on the same call: the same value, with its count, when
    the method returns, the same error message with [isError] when it
    throws; the client is left in the same state. *)
Theorem transports_agree w tc c :
  Stdio.callTool w tc c =
  match Http.call w tc c with
  | (Return v, c') => (Return (Stdio.ok (stdio_payload tc v)), c')
  | (Throw e, c') =>
      (Return {| Stdio.content := Stdio.Failed (message e);
                 Stdio.isError := true |}, c')
  end.
Proof.
  destruct tc; unfold Stdio.callTool, Http.call, try_catch, bind;
    try match goal with
        | |- context [match ?m c with _ => _ end] =>
            by destruct (m c) as [[?|?] ?]
        end.
  done.
Qed.

(** ** The JSON-RPC envelope *)

(** [handleJsonRpcRequest] never throws; an answer carries the id of its
    request; its error codes are -32601, for a method the server does not
    know, with the client untouched, and -32603, for a [tools/call] that
    failed; only [tools/call] can touch the client. *)
Theorem rpc_envelope w request c :
  ∃ o c',
    Http.handleJsonRpcRequest w request c = (Return o, c')
    ∧ (∀ resp, o = Some resp → Http.r_id resp = Http.id request)
    ∧ (∀ resp code msg,
         o = Some resp → Http.reply resp = Http.RpcError code msg →
         code = -32601
         ∧ msg = "Method not found: " +:+ Http.method request
         ∧ Http.method request ≠ "tools/call"
         ∨ code = -32603 ∧ Http.method request = "tools/call")
    ∧ (Http.method request ≠ "tools/call" → c' = c).
Proof.
  unfold Http.handleJsonRpcRequest, try_catch.
  destruct (String.eqb_spec (Http.method request) "initialize") as [->|_].
  { eexists _, _. split; [done|]. split; [by intros ? [= <-]|].
    split; [by intros ? ? ? [= <-]|done]. }
  destruct (String.eqb_spec (Http.method request) "tools/list") as [->|_].
  { eexists _, _. split; [done|]. split; [by intros ? [= <-]|].
    split; [by intros ? ? ? [= <-]|done]. }
  destruct (String.eqb_spec (Http.method request) "tools/call") as [Hm|Hm].
  { rewrite Hm.
    destruct (Http.params request) as [tc|].
    - unfold bind. destruct (Http.call w tc c) as [[v|e] c1];
        eexists _, _; (split; [done|]);
        (split; [by intros ? [= <-]|]); (split; [|done]).
      + by intros ? ? ? [= <-].
      + intros ? ? ? [= <-] [= <- _]. by right.
    - eexists _, _. split; [done|]. split; [by intros ? [= <-]|].
      split; [|done]. intros ? ? ? [= <-] [= <- _]. by right. }
  destruct (String.eqb_spec (Http.method request) "notifications/initialized")
    as [->|_].
  { eexists _, _. split; [done|]. by repeat split. }
  eexists _, _. split; [done|]. split; [by intros ? [= <-]|].
  split; [|done]. intros ? ? ? [= <-] [= <- <-]. by left.
Qed.

(** ** POST /mcp *)

Lemma answers_given env i requests c :
  length (given_answers (answers env i requests c).1)
  = length (filter (λ r, is_notification r = false) requests).
Proof.
  revert i c. induction requests as [|r rest IH]; intros i c; [done|].
  simpl.
  destruct (handleJsonRpcRequest_Return (Http.world_at env i) r c)
    as (o & c1 & -> & Ho).
  specialize (IH (S i) c1).
  destruct (answers env (S i) rest c1) as [os c2]. simpl in IH.
  rewrite filter_cons. destruct (is_notification r) eqn:Hn.
  - apply String.eqb_eq, Ho in Hn as ->. by rewrite decide_False.
  - rewrite decide_True by done. destruct o as [resp|].
    + unfold given_answers in *. simpl in *. f_equal. exact IH.
    + assert (Http.method r = "notifications/initialized") as Hm
        by by apply Ho.
      apply String.eqb_eq in Hm. unfold is_notification in Hn. congruence.
Qed.

(** A POST, single or batched, sends as many responses as it has requests
    other than [notifications/initialized]; its status is 202 with an empty
    body when there is none, an empty batch included, and 200 otherwise. *)
Theorem post_counts env sessionId body srv :
  let res := (Http.post_mcp env sessionId body srv).1 in
  let expected :=
    filter (λ r, is_notification r = false) (posted_requests body) in
  length (responses_sent (Http.sent res)) = length expected
  ∧ (expected = [] → Http.status res = 202%nat ∧ Http.sent res = Http.NoContent)
  ∧ (expected ≠ [] → Http.status res = 200%nat).
Proof.
  intros res expected. subst res. unfold Http.post_mcp.
  fold (posted_requests body). rewrite handle_all_answers. simpl.
  pose proof (answers_given env 0 (posted_requests body) (Http.wbClient srv))
    as Hlen. fold expected in Hlen.
  destruct (given_answers _) as [|r [|r' rs]]; simpl in *.
  - split; [done|]. split; [done|]. intros Hne. by destruct expected.
  - split; [done|]. split; [by intros Hn; rewrite Hn in Hlen|done].
  - split; [done|]. split; [by intros Hn; rewrite Hn in Hlen|done].
Qed.

(** A POST never looks the session up: the responses, the status and the
    client after it are the same whatever the session header; with a
    header that is not empty the session store stays as it is and no
    session id is sent. *)
Theorem session_header_ignored env sessionId sessionId' body srv :
  let out := Http.post_mcp env sessionId body srv in
  let out' := Http.post_mcp env sessionId' body srv in
  Http.sent out.1 = Http.sent out'.1
  ∧ Http.status out.1 = Http.status out'.1
  ∧ Http.wbClient out.2 = Http.wbClient out'.2
  ∧ (truthy_opt truthy_str sessionId = true →
     Http.sessions out.2 = Http.sessions srv
     ∧ Http.Mcp_Session_Id out.1 = None).
Proof.
  intros out out'. subst out out'. unfold Http.post_mcp.
  destruct (Http.handle_all env 0 _ [] (Http.wbClient srv)) as [rs c1].
  split; [by destruct rs as [|r [|r' rs]]|].
  split; [by destruct rs as [|r [|r' rs]]|].
  split; [by destruct rs as [|r [|r' rs]]|].
  intros ->. rewrite andb_false_r. by destruct rs as [|r [|r' rs]].
Qed.

Lemma session_header_ignored_witness :
  let env :=
    {| Http.world_at := λ _, Sample.world;
       Http.random1 := "0.4fzyo82mvyr"; Http.random2 := "0.k2j9x0q1abc";
       Http.now := 1700000000000 |} in
  let srv := {| Http.wbClient := constructor; Http.sessions := ∅ |} in
  let body :=
    Http.Single {| Http.method := "initialize"; Http.params := None;
                   Http.id := Some (Http.IdNum 1) |} in
  Http.sessions (Http.post_mcp env (Some "mcp-unknown") body srv).2 = ∅
  ∧ Http.Mcp_Session_Id (Http.post_mcp env (Some "mcp-unknown") body srv).1
    = None.
Proof.
  intros env srv body.
  exact (proj2 (proj2 (proj2
    (session_header_ignored env (Some "mcp-unknown") None body srv)))
    eq_refl).
Defined.

(** ** Sessions *)

Lemma string_length_app s1 s2 :
  String.length (s1 +:+ s2) = (String.length s1 + String.length s2)%nat.
Proof. induction s1 as [|a s1 IH]; simpl; [done|]. by rewrite IH. Qed.

Lemma substring_length n m s : (String.length (String.substring n m s) ≤ m)%nat.
Proof.
  revert n m. induction s as [|a s IH]; intros [|n] [|m]; simpl; try lia.
  - specialize (IH 0%nat m). lia.
  - apply (IH n 0%nat).
  - apply (IH n (S m)).
Qed.

(** A generated session id starts with [mcp-] and has between 4 and 30
    characters, whatever [Math.random] gives. *)
Theorem generateSessionId_format r1 r2 :
  String.prefix "mcp-" (Http.generateSessionId r1 r2) = true
  ∧ (4 ≤ String.length (Http.generateSessionId r1 r2) ≤ 30)%nat.
Proof.
  unfold Http.generateSessionId. split.
  - apply String.prefix_correct. simpl. repeat f_equal.
    by destruct (_ +:+ _).
  - rewrite !string_length_app.
    pose proof (substring_length 2 13 r1). pose proof (substring_length 2 13 r2).
    simpl. lia.
Qed.

Lemma generateSessionId_truthy r1 r2 :
  truthy_str (Http.generateSessionId r1 r2) = true.
Proof. reflexivity. Qed.

(** [DELETE /mcp] answers 200 exactly when the header names a stored
    session, which it then removes, the count of [GET /health] going down
    by one; in every other case, a missing or empty header included, it
    answers 404 and changes nothing.  It never touches the client. *)
Theorem delete_mcp_outcome sessionId srv :
  let '(status, body, srv') := Routes.delete_mcp sessionId srv in
  Http.wbClient srv' = Http.wbClient srv
  ∧ ((∃ s, sessionId = Some s ∧ s ≠ "" ∧ is_Some (Http.sessions srv !! s)
           ∧ status = 200%nat ∧ body = Routes.Terminated
           ∧ Http.sessions srv' = delete s (Http.sessions srv)
           ∧ S (Routes.health srv') = Routes.health srv)
     ∨ ((∀ s, sessionId = Some s → s = "" ∨ Http.sessions srv !! s = None)
        ∧ status = 404%nat ∧ body = Routes.NotFound "Session not found"
        ∧ srv' = srv)).
Proof.
  unfold Routes.delete_mcp, Routes.health.
  destruct sessionId as [s|]; [|split; [done|right; by split]].
  unfold truthy_str. destruct (String.eqb_spec s "") as [->|Hs]; simpl.
  { split; [done|]. right. split; [|done]. intros ? [= <-]. by left. }
  destruct (bool_decide_reflect (is_Some (Http.sessions srv !! s))) as [Hi|Hi].
  - split; [done|]. left. exists s. repeat split; try done. simpl.
    rewrite map_size_delete_Some by done.
    destruct Hi as [v Hv].
    assert (size (Http.sessions srv) ≠ 0%nat); [|lia].
    intros H0%map_size_empty_inv. by rewrite H0, lookup_empty in Hv.
  - split; [done|]. right. split; [|done]. intros ? [= <-]. right.
    by apply eq_None_not_Some.
Qed.

(** The life of a session: a POST with an [initialize] request and no
    session header sends a session id; a DELETE with that id answers 200
    and leaves the store as it was before the POST, less that id; a second
    DELETE with it answers 404. *)
Theorem session_lifecycle env requests srv :
  existsb Http.is_initialize requests = true →
  let sid := Http.generateSessionId (Http.random1 env) (Http.random2 env) in
  let posted := Http.post_mcp env None (Http.Batch requests) srv in
  let deleted := Routes.delete_mcp (Some sid) posted.2 in
  Http.Mcp_Session_Id posted.1 = Some sid
  ∧ deleted.1 = (200%nat, Routes.Terminated)
  ∧ Http.sessions deleted.2 = delete sid (Http.sessions srv)
  ∧ (Http.sessions srv !! sid = None →
     Http.sessions deleted.2 = Http.sessions srv)
  ∧ (Routes.delete_mcp (Some sid) deleted.2).1
    = (404%nat, Routes.NotFound "Session not found").
Proof.
  intros Hi sid posted deleted.
  assert (Hp : Http.Mcp_Session_Id posted.1 = Some sid
               ∧ Http.sessions posted.2 = <[sid := Http.now env]> (Http.sessions srv)).
  { subst posted. unfold Http.post_mcp. rewrite Hi. simpl.
    destruct (Http.handle_all env 0 requests [] (Http.wbClient srv)) as [rs c1].
    by destruct rs as [|r [|r' rs]]. }
  destruct Hp as [Hh Hs]. split; [done|].
  assert (Hd : deleted =
    (200%nat, Routes.Terminated,
     {| Http.wbClient := Http.wbClient posted.2;
        Http.sessions := delete sid (Http.sessions srv) |})).
  { subst deleted. unfold Routes.delete_mcp.
    change (truthy_str sid) with true. rewrite Hs, lookup_insert_eq. simpl.
    by rewrite delete_insert_eq. }
  rewrite Hd. simpl. split; [done|]. split; [done|].
  split; [by apply delete_id|].
  unfold Routes.delete_mcp. change (truthy_str sid) with true. simpl.
  rewrite lookup_delete_eq. by rewrite bool_decide_false by by intros [? ?].
Qed.

Lemma session_lifecycle_witness :
  let env :=
    {| Http.world_at := λ _, Sample.world;
       Http.random1 := "0.4fzyo82mvyr"; Http.random2 := "0.k2j9x0q1abc";
       Http.now := 1700000000000 |} in
  let srv := {| Http.wbClient := constructor; Http.sessions := ∅ |} in
  let batch :=
    [ {| Http.method := "initialize"; Http.params := None;
         Http.id := Some (Http.IdNum 1) |} ] in
  (Routes.delete_mcp (Some "mcp-4fzyo82mvyrk2j9x0q1abc")
     (Http.post_mcp env None (Http.Batch batch) srv).2).1
  = (200%nat, Routes.Terminated).
Proof.
  intros env srv batch.
  exact (proj1 (proj2 (session_lifecycle env batch srv eq_refl))).
Defined.

(** ** Prices read from the page *)

Lemma digit_runs_no_digit s :
  Forall (λ ch, isDigit ch = false) s → digit_runs s None = [].
Proof.
  induction 1 as [|ch s Hch _ IH]; simpl; [done|]. by rewrite Hch.
Qed.

Lemma trimStart_Forall (P : N → Prop) s : Forall P s → Forall P (trimStart s).
Proof.
  induction 1 as [|ch s Hch Hs IH]; simpl; [done|].
  destruct (isSpace ch); [done|by constructor].
Qed.

Lemma trim_Forall (P : N → Prop) s : Forall P s → Forall P (trim s).
Proof.
  intros H. unfold trim.
  by apply Forall_reverse, trimStart_Forall, Forall_reverse, trimStart_Forall.
Qed.

(** The price nodes are tried by presence, not by content: when the wallet
    price node is there and its text has no digit, the card gives no
    price, whatever the final price node says. *)
Theorem wallet_node_shadows card t :
  walletPrice card = Some t →
  Forall (λ ch, isDigit ch = false) t →
  priceNum card = None.
Proof.
  intros Hw Ht. unfold priceNum, priceEl. rewrite Hw.
  by rewrite digit_runs_no_digit by by apply trim_Forall.
Qed.

Lemma wallet_node_shadows_witness :
  priceNum {| data_nm_id := Some "103"; href := None; nameText := None;
              brandText := None; imgSrc := None;
              walletPrice := Some [8212; 32; 8381]%N;
              finalPrice := Some [57; 57; 48; 32; 8381]%N;
              anyPrice := Some [57; 57; 48; 32; 8381]%N |} = None.
Proof.
  apply (wallet_node_shadows _ [8212; 32; 8381]%N); [reflexivity|].
  repeat constructor.
Defined.

(** A price read from a card is a whole number of roubles above 0 and
    below 100000000. *)
Theorem dom_price_bounds card n :
  priceNum card = Some n → 0 < n < 100000000.
Proof.
  unfold priceNum. destruct (priceEl card) as [t|]; [|done].
  induction (digit_runs (trim t) None) as [|m rest IH]; simpl; [done|].
  destruct (Z.ltb_spec 0 (parseInt (remove_spaces m))); simpl; [|done].
  destruct (Z.ltb_spec (parseInt (remove_spaces m)) 100000000); [|done].
  intros [= <-]. lia.
Qed.

Lemma dom_price_bounds_witness : 0 < 1234 < 100000000.
Proof. exact (dom_price_bounds Sample.priced 1234 eq_refl). Defined.

Lemma init_Return_ready w c c1 : init w c = (Return (), c1) → ready w c.
Proof.
  unfold init, ready. destruct (isInitialized c); [by left|].
  destruct (launch w); [done|]. destruct (warm_up w); [done|by right].
Qed.

(** What a search that returns has returned. *)
Lemma search_Return w query options c ps c' :
  search w query options c = (Return ps, c') →
  ps = []
  ∨ ∃ page,
      goto w (search_url query options) = NavOk page
      ∧ cardAppears page = true
      ∧ let products :=
          extract <$> slice0 (cards page) (default 20 (limit options)) in
        ps = match listed_prices w (dest c) products with
             | Some ds => backfill (build_priceMap ds) <$> products
             | None => products
             end.
Proof.
  intros H. pose proof H as H'. unfold search in H'.
  apply bind_Return in H' as ([] & c1 & Hi%init_Return_ready & H').
  apply bind_Return in H' as (page & c2 & Hg & H').
  unfold page_goto, bind, record in Hg. simpl in Hg.
  destruct (goto w (search_url query options)) as [e|page'] eqn:Hgo;
    [discriminate|]. injection Hg as -> _.
  destruct (cardAppears page) eqn:Hc.
  - right. exists page. split; [done|]. split; [done|].
    destruct (search_shown _ _ _ _ _ Hi Hgo Hc) as [ev Hs].
    rewrite Hs in H. simpl in H. by injection H as <- _.
  - left. by injection H' as <- _.
Qed.

(** In what [search] returns, [priceFormatted] is there exactly when
    [price] is and is made from the same number, and a price is never 0. *)
Theorem found_price_invariant w query options c ps c' item :
  search w query options c = (Return ps, c') →
  item ∈ ps →
  Found.priceFormatted item = Found.price item
  ∧ ∀ q, Found.price item = Some q → ¬ (q == 0)%Q.
Proof.
  intros H Hin.
  assert (Hx : ∀ card,
    Found.priceFormatted (extract card) = Found.price (extract card)
    ∧ ∀ q, Found.price (extract card) = Some q → ¬ (q == 0)%Q).
  { intros card. split; [done|]. intros q. rewrite extract_price.
    destruct (priceNum card) as [n|] eqn:Hn; [|done].
    apply priceNum_pos in Hn. intros [= <-]. unfold Qeq. simpl. lia. }
  assert (Hb : ∀ m card,
    Found.priceFormatted (backfill m (extract card))
    = Found.price (backfill m (extract card))
    ∧ ∀ q, Found.price (backfill m (extract card)) = Some q → ¬ (q == 0)%Q).
  { intros m card. unfold backfill.
    destruct (m !! _) as [q'|]; [|apply Hx].
    destruct (lacks_price (extract card)); simpl; [|apply Hx].
    destruct (truthy_rat q') eqn:Hq; [|apply Hx]. simpl.
    split; [done|]. intros q [= <-]. unfold truthy_rat in Hq.
    apply negb_true_iff, Z.eqb_neq in Hq. unfold Qeq. simpl. lia. }
  apply search_Return in H as [->|(page & _ & _ & ->)]; [by apply elem_of_nil in Hin|].
  destruct (listed_prices _ _ _) as [ds|].
  - apply list_elem_of_fmap in Hin as (p & -> & Hp).
    apply list_elem_of_fmap in Hp as (card & -> & _). apply Hb.
  - apply list_elem_of_fmap in Hin as (card & -> & _). apply Hx.
Qed.

Lemma found_price_invariant_witness :
  Found.priceFormatted (extract Sample.priced)
  = Found.price (extract Sample.priced).
Proof.
  refine (proj1 (found_price_invariant Sample.unreachable "kettle"
    (search_options None None None None None) constructor
    (extract <$> [Sample.priced; Sample.unpriced]) _ (extract Sample.priced)
    _ _)).
  - vm_compute. reflexivity.
  - apply list_elem_of_here.
Defined.

(** ** The requests of a search *)

Lemma requests_in_app h1 h2 :
  requests_in (h1 ++ h2) = requests_in h1 ++ requests_in h2.
Proof. unfold requests_in. by rewrite filter_app. Qed.

Lemma requests_in_started c : requests_in (started c) = [].
Proof. unfold started. by destruct (isInitialized c). Qed.

(** A search sends at most one request, however many products lack a
    price: one to the list endpoint of the descriptor, with the zone code
    of the client as [dest] in its query. *)
Theorem search_one_request w query options c :
  ready w c →
  ∃ o c',
    search w query options c = (o, c')
    ∧ (requests_in (history c') = requests_in (history c)
       ∨ ∃ ids,
           requests_in (history c')
           = requests_in (history c)
             ++ [Requested
                   ("https://www.wildberries.ru/__internal/u-card/cards/v4/list?appType=1&curr=rub&dest="
                    +:+ dest c +:+ "&spp=30&lang=ru&nm=" +:+ ids)]).
Proof.
  intros Hr.
  destruct (search_navigates w query options c Hr) as (o & rest & Hs & Hz).
  eexists _, _. split; [exact Hs|]. simpl.
  rewrite !requests_in_app, requests_in_started. simpl.
  destruct Hz as [->|[ids ->]]; [left|right; exists ids].
  - unfold requests_in. simpl. by rewrite app_nil_r.
  - done.
Qed.

Lemma search_one_request_witness :
  ∃ o c',
    search Sample.world "kettle" (search_options None None None None None)
      constructor = (o, c')
    ∧ (requests_in (history c') = []
       ∨ ∃ ids,
           requests_in (history c')
           = [] ++ [Requested
                      ("https://www.wildberries.ru/__internal/u-card/cards/v4/list?appType=1&curr=rub&dest=-1255987&spp=30&lang=ru&nm="
                       +:+ ids)]).
Proof.
  apply (search_one_request Sample.world "kettle" _ constructor).
  right; split; reflexivity.
Defined.

(** A search does not fail when the descriptor cannot be reached: the
    rejection is swallowed and the products come back with the prices read
    from the page. *)
Theorem search_survives_rejection w query options c page :
  ready w c →
  goto w (search_url query options) = NavOk page →
  cardAppears page = true →
  (∀ url, ∃ e, fetch w url = Rejected e) →
  ∃ c',
    search w query options c =
    (Return (extract <$> slice0 (cards page) (default 20 (limit options))), c').
Proof.
  intros Hr Hg Hc Hf.
  destruct (search_shown _ _ _ _ _ Hr Hg Hc) as [ev Hs].
  exists (up c ev). rewrite Hs. simpl. unfold listed_prices.
  destruct (0 <? _)%nat; [|done].
  by destruct (Hf (listUrl (dest c) (joined_ids (productsWithoutPrice
       (extract <$> slice0 (cards page) (default 20 (limit options)))))))
    as [e ->].
Qed.

Lemma search_survives_rejection_witness :
  ∃ c',
    search Sample.unreachable "kettle"
      (search_options None None None None None) constructor =
    (Return (extract <$> [Sample.priced; Sample.unpriced]), c').
Proof.
  apply (search_survives_rejection Sample.unreachable "kettle"
           (search_options None None None None None) constructor
           (Sample.results true)).
  - right; split; reflexivity.
  - reflexivity.
  - reflexivity.
  - intros url. by eexists.
Defined.

(** ** Prices and discount of a detail record *)

Lemma roubles_spec o :
  roubles o = match o with
              | Some k => if k =? 0 then None else Some (div100 k)
              | None => None
              end.
Proof.
  unfold roubles, truthy_num. destruct o as [k|]; [|done].
  by destruct (k =? 0).
Qed.

(** What a detail record says of the amounts of the descriptor: a price
    is [null] exactly when its amount is missing or 0; a price that is
    there is the amount in kopecks divided by 100, as doubles; and with a
    price that is [null] there is no discount. *)
Theorem detail_prices w productId c product :
  ready w c →
  Api.first_item (detail_answer w (dest c) productId) = Some product →
  ∃ r c',
    getProductDetails w productId c = (Return r, c')
    ∧ (priceBasic r = None
       ↔ Api.first_basic product = None ∨ Api.first_basic product = Some 0)
    ∧ (priceFinal r = None
       ↔ Api.first_product product = None ∨ Api.first_product product = Some 0)
    ∧ (∀ q, priceBasic r = Some q →
         ∃ k, Api.first_basic product = Some k ∧ k ≠ 0 ∧ q = div100 k
              ∧ double q = (Z2F k / Z2F 100)%float)
    ∧ (∀ q, priceFinal r = Some q →
         ∃ k, Api.first_product product = Some k ∧ k ≠ 0 ∧ q = div100 k
              ∧ double q = (Z2F k / Z2F 100)%float)
    ∧ (priceBasic r = None ∨ priceFinal r = None → discount r = None).
Proof.
  intros Hr Hp. rewrite (getProductDetails_up _ _ _ Hr), Hp.
  eexists _, _. split; [done|].
  set (a := assemble productId product (resolve w productId baskets)).
  destruct (with_discount_prices a) as [-> ->].
  assert (Hb : priceBasic a = roubles (Api.first_basic product)) by done.
  assert (Hf : priceFinal a = roubles (Api.first_product product)) by done.
  assert (Hpres : ∀ o, (roubles o = None ↔ o = None ∨ o = Some 0)
                       ∧ ∀ q, roubles o = Some q →
                           ∃ k, o = Some k ∧ k ≠ 0 ∧ q = div100 k
                                ∧ double q = (Z2F k / Z2F 100)%float).
  { intros o. rewrite roubles_spec. destruct o as [k|].
    - destruct (Z.eqb_spec k 0) as [->|Hk].
      + split; [split; auto|done].
      + split; [split; [done|intros [|[=]]; done]|].
        intros q [= <-]. exists k. split_and!; try done.
        unfold double. change (Qnum (div100 k)) with (k * 1).
        change (Z.pos (Qden (div100 k))) with 100. by rewrite Z.mul_1_r.
    - split; [split; auto|done]. }
  rewrite Hb, Hf.
  split; [apply Hpres|]. split; [apply Hpres|].
  split; [apply Hpres|]. split; [apply Hpres|].
  assert (Hd : discount a = None) by done.
  rewrite <- Hb, <- Hf. clearbody a. unfold with_discount.
  destruct (priceBasic a), (priceFinal a); intros [|]; done.
Qed.

Lemma detail_prices_witness :
  ∃ r c',
    getProductDetails Sample.world 102 constructor = (Return r, c')
    ∧ ∀ q, priceFinal r = Some q →
        ∃ k, Some 150000 = Some k ∧ k ≠ 0 ∧ q = div100 k
             ∧ double q = (Z2F k / Z2F 100)%float.
Proof.
  destruct (detail_prices Sample.world 102 constructor
              (Sample.bare 102
                 (Some [Sample.one_size (Some 200000) (Some 150000)])))
    as (r & c' & H & _ & _ & _ & Hf & _).
  - right; split; reflexivity.
  - reflexivity.
  - exists r, c'. split; [exact H|exact Hf].
Defined.

(** ** Details: requests and errors *)

Lemma requests_in_card_requests productId hosts :
  requests_in (card_requests productId hosts) = card_requests productId hosts.
Proof.
  induction hosts as [|b rest IH]; [done|].
  unfold requests_in, card_requests in *. simpl.
  rewrite filter_cons_True by done. f_equal. exact IH.
Qed.

Lemma asked_bounds w productId b rest :
  (1 ≤ length (asked w productId (b :: rest)) ≤ length (b :: rest))%nat.
Proof.
  split; [simpl; lia|]. apply prefix_length, asked_prefix.
Qed.

(** [getProductDetails] sends between 2 and 37 requests: one to the
    price/stock descriptor and then one to each mirror it asks; it asks
    the mirrors also when the descriptor does not list the product, and
    its only error is then the not-found error, rejected requests being
    swallowed. *)
Theorem details_requests w productId c :
  ready w c →
  ∃ o c' mirrors,
    getProductDetails w productId c = (o, c')
    ∧ requests_in (history c')
      = requests_in (history c)
        ++ Requested (detailUrl (dest c) productId)
           :: card_requests productId mirrors
    ∧ (1 ≤ length mirrors ≤ 36)%nat
    ∧ (o = Throw (not_found productId) ∨ ∃ r, o = Return r)
    ∧ ((∀ url, ∃ e, fetch w url = Rejected e) →
       o = Throw (not_found productId) ∧ length mirrors = 36%nat).
Proof.
  intros Hr. rewrite (getProductDetails_up _ _ _ Hr).
  pose proof (asked_bounds w productId 1 (seq 2 35)) as Hb.
  change (1%nat :: seq 2 35) with baskets in Hb.
  change (length baskets) with 36%nat in Hb.
  assert (Hx : (∀ url, ∃ e, fetch w url = Rejected e) →
               length (asked w productId baskets) = 36%nat).
  { intros Hf. rewrite asked_exhausted; [done|].
    assert (Hh : ∀ b, held_at w productId b = None).
    { intros b. unfold held_at.
      by destruct (Hf (cardUrl b productId)) as [e' ->]. }
    clear -Hh. induction baskets as [|b rest IH]; [done|].
    simpl. by rewrite Hh. }
  generalize dependent (asked w productId baskets). intros mirrors Hb Hx.
  eexists _, _, mirrors. split; [done|]. cbn [history up].
  rewrite !requests_in_app, requests_in_started, requests_in_card_requests.
  split; [done|]. split; [done|].
  split; [destruct (Api.first_item _); eauto|].
  intros Hf. unfold detail_answer.
  destruct (Hf (detailUrl (dest c) productId)) as [e ->]. split; [done|].
  by apply Hx.
Qed.

Lemma details_requests_witness :
  ∃ c',
    getProductDetails Sample.unreachable 102 constructor
    = (Throw (not_found 102), c')
    ∧ length (requests_in (history c')) = 37%nat.
Proof.
  destruct (details_requests Sample.unreachable 102 constructor)
    as (o & c' & mirrors & H & Hh & _ & _ & Hf).
  - right; split; reflexivity.
  - destruct Hf as [-> Hm]; [intros url; by eexists|].
    exists c'. split; [exact H|]. rewrite Hh. simpl.
    unfold card_requests. by rewrite length_fmap, Hm.
Defined.

(** [getProductDetails] cannot do without the price/stock descriptor: when
    the request for it is rejected, answers [null] or another falsy value,
    or lists no product, the call throws the not-found error whatever the
    mirrors hold, and the HTTP server answers the [tools/call] with error
    -32603 and the text [Product N not found]. *)
Theorem details_without_descriptor w productId c i :
  ready w c →
  (∀ body product rest,
     fetch w (detailUrl (dest c) productId) = Resolved (Some body) →
     Api.products body ≠ Some (product :: rest)) →
  ∃ c',
    getProductDetails w productId c = (Throw (not_found productId), c')
    ∧ Http.handleJsonRpcRequest w
        {| Http.method := "tools/call";
           Http.params := Some (wb_product_details productId);
           Http.id := i |} c
      = (Return (Some {| Http.r_id := i;
                         Http.reply :=
                           Http.RpcError (-32603)
                             ("Product " +:+ Number_toString productId
                              +:+ " not found") |}), c').
Proof.
  intros Hr Hf.
  assert (Hn : Api.first_item (detail_answer w (dest c) productId) = None).
  { unfold detail_answer.
    destruct (fetch w (detailUrl (dest c) productId)) as [e|[body|]|];
      try done.
    unfold Api.first_item. simpl.
    destruct (Api.products body) as [[|product rest]|] eqn:Hp; try done.
    by destruct (Hf body product rest). }
  pose proof (getProductDetails_up _ productId _ Hr) as H.
  rewrite Hn in H. eexists. split; [exact H|].
  unfold Http.handleJsonRpcRequest, try_catch. simpl.
  by rewrite (bind_Throw _ _ _ _ _ (bind_Throw _ _ _ _ _ H)).
Qed.

Lemma details_without_descriptor_witness :
  ∃ c',
    getProductDetails Sample.barren 7 constructor
    = (Throw {| message := "Product 7 not found" |}, c')
    ∧ Http.handleJsonRpcRequest Sample.barren
        {| Http.method := "tools/call";
           Http.params := Some (wb_product_details 7);
           Http.id := Some (Http.IdNum 5) |} constructor
      = (Return (Some {| Http.r_id := Some (Http.IdNum 5);
                         Http.reply :=
                           Http.RpcError (-32603) "Product 7 not found" |}),
         c').
Proof.
  apply (details_without_descriptor Sample.barren 7 constructor
           (Some (Http.IdNum 5))).
  - right; split; reflexivity.
  - intros body product rest [= <-]. discriminate.
Defined.

(** [getProductsList] does not swallow: a rejected request throws the
    rejection and an answer that is [null] throws the [TypeError] of
    reading [products] of [null], and the stdio server reports either as a
    failed result with that message; any other falsy answer gives the empty
    list, through the optional chaining. *)
Theorem list_propagates w productIds c :
  ready w c →
  let url := listUrl (dest c) (join ";" (Number_toString <$> productIds)) in
  let failed e c' :=
    getProductsList w productIds c = (Throw e, c')
    ∧ Stdio.callTool w (wb_products_list productIds) c
      = (Return {| Stdio.content := Stdio.Failed (message e);
                   Stdio.isError := true |}, c') in
  ∃ c',
    (∀ e, fetch w url = Rejected e → failed e c')
    ∧ (fetch w url = Resolved None →
       failed {| message :=
                   "Cannot read properties of null (reading 'products')" |} c')
    ∧ (fetch w url = Resolved_falsy →
       getProductsList w productIds c = (Return [], c')).
Proof.
  intros Hr url failed. subst failed. cbv beta.
  exists (up c (started c ++ [Requested url])).
  pose proof (getProductsList_up _ productIds _ Hr) as H.
  cbv zeta in H. fold url in H.
  assert (Hs : ∀ e,
    getProductsList w productIds c
      = (Throw e, up c (started c ++ [Requested url])) →
    Stdio.callTool w (wb_products_list productIds) c
      = (Return {| Stdio.content := Stdio.Failed (message e);
                   Stdio.isError := true |},
         up c (started c ++ [Requested url]))).
  { intros e He. unfold Stdio.callTool, try_catch.
    by rewrite (bind_Throw _ _ _ _ _ He). }
  split; [|split].
  - intros e Hf. rewrite Hf in H. split; [exact H|by apply Hs].
  - intros Hf. rewrite Hf in H. split; [exact H|by apply Hs].
  - intros Hf. by rewrite Hf in H.
Qed.

Lemma list_propagates_witness :
  ∃ c',
    getProductsList Sample.unreachable [102] constructor
    = (Throw {| message := "HTTP 404" |}, c')
    ∧ Stdio.callTool Sample.unreachable (wb_products_list [102]) constructor
      = (Return {| Stdio.content := Stdio.Failed "HTTP 404";
                   Stdio.isError := true |}, c').
Proof.
  destruct (list_propagates Sample.unreachable [102] constructor)
    as (c' & Hr & _).
  - right; split; reflexivity.
  - exists c'. apply Hr. reflexivity.
Defined.

(** The list view and the detail view of one descriptor product agree:
    same prices, same delivery time, same name, brand, rating and stock. *)
Theorem list_detail_agree w w' productId productIds c c0 product body :
  ready w c →
  ready w' c0 →
  Api.first_item (detail_answer w (dest c) productId) = Some product →
  fetch w' (listUrl (dest c0) (join ";" (Number_toString <$> productIds)))
    = Resolved (Some body) →
  Api.products body = Some [product] →
  ∃ r c' l c0',
    getProductDetails w productId c = (Return r, c')
    ∧ getProductsList w' productIds c0 = (Return [l], c0')
    ∧ priceBasic r = l_priceBasic l
    ∧ priceFinal r = l_priceFinal l
    ∧ deliveryTime r = l_deliveryTime l
    ∧ name r = l_name l ∧ brand r = l_brand l
    ∧ rating r = l_rating l ∧ inStock r = l_inStock l.
Proof.
  intros Hr Hr' Hp Hf Hb.
  set (a := assemble productId product (resolve w productId baskets)).
  exists (with_discount a). eexists. exists (listed product). eexists.
  split; [by rewrite (getProductDetails_up _ _ _ Hr), Hp|].
  split.
  { rewrite (getProductsList_up _ _ _ Hr'). cbv zeta. by rewrite Hf, Hb. }
  destruct (with_discount_prices a) as [-> ->].
  assert (Ho : deliveryTime (with_discount a) = deliveryTime a
               ∧ name (with_discount a) = name a
               ∧ brand (with_discount a) = brand a
               ∧ rating (with_discount a) = rating a
               ∧ inStock (with_discount a) = inStock a).
  { unfold with_discount.
    destruct (priceBasic a), (priceFinal a); try done. by destruct (_ && _). }
  destruct Ho as (-> & -> & -> & -> & ->). done.
Qed.

Lemma list_detail_agree_witness :
  ∃ r c' l c0',
    getProductDetails Sample.world 102 constructor = (Return r, c')
    ∧ getProductsList Sample.world [102] constructor = (Return [l], c0')
    ∧ priceFinal r = l_priceFinal l.
Proof.
  destruct (list_detail_agree Sample.world Sample.world 102 [102]
              constructor constructor
              (Sample.bare 102
                 (Some [Sample.one_size (Some 200000) (Some 150000)]))
              Sample.answer)
    as (r & c' & l & c0' & H & Hl & _ & Hf & _); try reflexivity.
  - right; split; reflexivity.
  - right; split; reflexivity.
  - by exists r, c', l, c0'.
Defined.

(** ** The destination, once set *)

Lemma setDestination_full w address c :
  ready w c →
  setDestination w address c =
  let r := fetch w (geoUrl address) in
  match last (candidates r) with
  | Some d =>
      (Return (DestinationSet (resolved_address r) (Number_toString d)
                 (candidates r)),
       {| isInitialized := true; dest := Number_toString d;
          history := history c ++ started c ++ [Requested (geoUrl address)] |})
  | None =>
      (Return (DestinationFailed "Could not find destination"),
       up c (started c ++ [Requested (geoUrl address)]))
  end.
Proof.
  intros Hr. unfold setDestination.
  rewrite (bind_step _ _ _ _ _ (init_ready _ _ Hr)).
  unfold try_catch. cbv zeta.
  destruct (fetch w (geoUrl address)) as [e|[geo|]|] eqn:Hf.
  - by rewrite (bind_Throw _ _ _ e _ (eq_trans (apiRequest_up _ _ _ _)
                  ltac:(by rewrite Hf))).
  - rewrite (bind_step _ _ _ (Truthy geo) _ (eq_trans (apiRequest_up _ _ _ _)
               ltac:(by rewrite Hf))).
    simpl. destruct (Api.destinations geo) as [ds|]; simpl; [|done].
    by destruct (last ds) as [d|] eqn:Hd.
  - by rewrite (bind_step _ _ _ Null _ (eq_trans (apiRequest_up _ _ _ _)
                  ltac:(by rewrite Hf))).
  - by rewrite (bind_step _ _ _ Falsy _ (eq_trans (apiRequest_up _ _ _ _)
                  ltac:(by rewrite Hf))).
Qed.

(** Setting the same destination twice in the same world gives the same
    answer and the same zone code both times. *)
Theorem setDestination_idempotent w address c :
  ready w c →
  let first := setDestination w address c in
  let second := setDestination w address first.2 in
  second.1 = first.1 ∧ dest second.2 = dest first.2.
Proof.
  intros Hr first second. subst second first.
  rewrite (setDestination_full _ _ _ Hr). cbv zeta.
  destruct (last (candidates (fetch w (geoUrl address)))) as [d|] eqn:Hd;
    cbn [snd]; rewrite setDestination_full by (by left); cbv zeta;
    by rewrite Hd.
Qed.

Lemma setDestination_idempotent_witness :
  (setDestination Sample.world "Kazan"
     (setDestination Sample.world "Kazan" constructor).2).1
  = (setDestination Sample.world "Kazan" constructor).1.
Proof.
  refine (proj1 (setDestination_idempotent Sample.world "Kazan" constructor _)).
  right; split; reflexivity.
Defined.

(** A destination that was set is the one the later calls use: after
    [setDestination] has returned the zone code [d], the client holds [d],
    the next list and detail requests go to the descriptor with [dest=d]
    in their query, and this is so also after [close] and a new launch. *)
Theorem destination_persists w address c a d ds c1 w2 :
  setDestination w address c = (Return (DestinationSet a d ds), c1) →
  launch w2 = None →
  warm_up w2 = None →
  dest c1 = d
  ∧ dest (close c1).2 = d
  ∧ ∀ c2, c2 = c1 ∨ c2 = (close c1).2 →
      (∀ productIds, ∃ o c3,
         getProductsList w2 productIds c2 = (o, c3)
         ∧ Requested
             ("https://www.wildberries.ru/__internal/u-card/cards/v4/list?appType=1&curr=rub&dest="
              +:+ d +:+ "&spp=30&lang=ru&nm="
              +:+ join ";" (Number_toString <$> productIds))
           ∈ history c3)
      ∧ (∀ productId, ∃ o c3,
           getProductDetails w2 productId c2 = (o, c3)
           ∧ Requested
               ("https://www.wildberries.ru/__internal/u-card/cards/v4/detail?appType=1&curr=rub&dest="
                +:+ d +:+ "&spp=30&lang=ru&nm=" +:+ Number_toString productId)
             ∈ history c3).
Proof.
  intros H Hl Hw.
  assert (Hd : dest c1 = d).
  { destruct (ready_or_not w c) as [Hr|(e & c0 & Hi & _)].
    - rewrite (setDestination_full _ _ _ Hr) in H. cbv zeta in H.
      destruct (last _); [|discriminate]. by injection H as _ <- _ <-.
    - unfold setDestination in H. by rewrite (bind_Throw _ _ _ _ _ Hi) in H. }
  assert (Hc : dest (close c1).2 = d).
  { unfold close. by destruct (isInitialized c1). }
  split; [done|]. split; [done|].
  intros c2 Hc2.
  assert (Hd2 : dest c2 = d) by (by destruct Hc2 as [->| ->]).
  assert (Hr2 : ready w2 c2) by (by right).
  split.
  - intros productIds. rewrite (getProductsList_up _ _ _ Hr2), Hd2.
    eexists _, _. split; [done|]. cbn [history up].
    fold (listUrl d (join ";" (Number_toString <$> productIds))).
    set_solver.
  - intros productId. rewrite (getProductDetails_up _ _ _ Hr2), Hd2.
    eexists _, _. split; [done|]. cbn [history up].
    fold (detailUrl d productId). set_solver.
Qed.

Lemma destination_persists_witness :
  ∃ o c3,
    getProductsList Sample.world [102]
      (close (setDestination Sample.world "Kazan" constructor).2).2 = (o, c3)
    ∧ Requested
        "https://www.wildberries.ru/__internal/u-card/cards/v4/list?appType=1&curr=rub&dest=-2133462&spp=30&lang=ru&nm=102"
      ∈ history c3.
Proof.
  refine (proj1 (proj2 (proj2
    (destination_persists Sample.world "Kazan" constructor (Some "Kazan")
       "-2133462" [-1257786; -2133462]
       (setDestination Sample.world "Kazan" constructor).2 Sample.world
       _ _ _)) _ _) [102]).
  - reflexivity.
  - reflexivity.
  - reflexivity.
  - right; reflexivity.
Defined.

(** ** Filters *)

Lemma distinct_spec l seen :
  NoDup (distinct l seen)
  ∧ ∀ x, x ∈ distinct l seen ↔ x ∈ l ∧ x ∉ seen.
Proof.
  revert seen. induction l as [|y l IH]; intros seen; simpl.
  { split; [constructor|]. intros x. set_solver. }
  destruct (bool_decide_reflect (y ∈ seen)) as [Hy|Hy].
  - destruct (IH seen) as [Hn Hm]. split; [done|].
    intros x. rewrite Hm. set_solver.
  - destruct (IH (y :: seen)) as [Hn Hm]. split.
    + constructor; [|done]. rewrite Hm. set_solver.
    + intros x. rewrite elem_of_cons, Hm.
      destruct (decide (x = y)) as [->|]; set_solver.
Qed.

(** On a page that shows cards, [getFilters] returns the query, the fixed
    sort options and parameters, and the filter labels without repeats
    and without empty ones: a label is listed exactly when it is the
    trimmed text, not empty, of a filter button. *)
Theorem getFilters_labels w query c page :
  ready w c →
  goto w (filtersUrl query) = NavOk page →
  cardAppears page = true →
  ∃ labels c',
    getFilters w query c
    = (Return (FilterSet query labels sortOptions urlParams), c')
    ∧ NoDup labels
    ∧ ∀ t, t ∈ labels ↔ t ≠ [] ∧ ∃ b, b ∈ filterButtons page ∧ t = trim b.
Proof.
  intros Hr Hg Hc. unfold getFilters.
  rewrite (bind_step _ _ _ _ _ (init_ready _ _ Hr)).
  rewrite (bind_step _ _ _ page _ (eq_trans (page_goto_up _ _ _ _)
             ltac:(by rewrite Hg))).
  rewrite Hc. eexists _, _. split; [done|].
  destruct (distinct_spec
    (filter (λ t, t ≠ []) (trim <$> filterButtons page)) []) as [Hn Hm].
  split; [done|]. intros t. rewrite Hm, list_elem_of_filter, list_elem_of_fmap.
  split.
  - intros [[Ht (b & -> & Hb)] _]. eauto.
  - intros [Ht (b & Hb & ->)]. split; [eauto|]. apply not_elem_of_nil.
Qed.

Lemma getFilters_labels_witness :
  ∃ labels c',
    getFilters Sample.world "phone" constructor
    = (Return (FilterSet "phone" labels sortOptions urlParams), c')
    ∧ NoDup labels.
Proof.
  destruct (getFilters_labels Sample.world "phone" constructor
              (Sample.results true)) as (labels & c' & H & Hn & _);
    try reflexivity.
  - right; split; reflexivity.
  - by exists labels, c'.
Defined.

(** ** The brand of a card *)

Lemma drop_line_one_line s :
  Forall (λ ch, isLineTerminator ch = false) s → drop_line s = [].
Proof. induction 1 as [|ch s Hch _ IH]; simpl; [done|]. by rewrite Hch. Qed.

Lemma cut_at_slash_spaces sp rest ws :
  Forall (λ ch, isSpace ch = true) sp →
  Forall (λ ch, isLineTerminator ch = false) rest →
  cut_at_slash (sp ++ 47%N :: rest) ws = [].
Proof.
  intros Hsp Hrest. revert ws.
  induction Hsp as [|s sp Hs _ IH]; intros ws; simpl.
  { by apply drop_line_one_line. }
  destruct (N.eqb_spec s 47) as [->|_]; [done|]. rewrite Hs. apply IH.
Qed.

Lemma cut_before_slash a sp rest ws :
  47%N ∉ a →
  match last a with Some ch => isSpace ch = false | None => True end →
  Forall (λ ch, isSpace ch = true) sp →
  Forall (λ ch, isLineTerminator ch = false) rest →
  cut_at_slash (a ++ sp ++ 47%N :: rest) ws
  = match a with [] => [] | _ => ws ++ a end.
Proof.
  intros Ha Hl Hsp Hrest. revert ws.
  induction a as [|x a IH]; intros ws.
  { by apply cut_at_slash_spaces. }
  simpl. destruct (N.eqb_spec x 47) as [->|_]; [set_solver|].
  assert (Ha' : 47%N ∉ a) by set_solver.
  destruct a as [|y a].
  - simpl in Hl. rewrite Hl. simpl.
    by rewrite (cut_at_slash_spaces sp rest []).
  - assert (Hl' : match last (y :: a) with
                  | Some ch => isSpace ch = false | None => True end)
      by (by rewrite last_cons_cons in Hl).
    destruct (isSpace x).
    + rewrite (IH Ha' Hl'). by rewrite <- app_assoc.
    + by rewrite (IH Ha' Hl').
Qed.

Lemma cut_without_slash s ws : 47%N ∉ s → cut_at_slash s ws = ws ++ s.
Proof.
  revert ws. induction s as [|x s IH]; intros ws Hs; simpl.
  { by rewrite app_nil_r. }
  destruct (N.eqb_spec x 47) as [->|_]; [set_solver|].
  assert (Hs' : 47%N ∉ s) by set_solver.
  destruct (isSpace x).
  - rewrite IH by done. by rewrite <- app_assoc.
  - by rewrite IH.
Qed.

(** The brand of a found product is the trimmed text of the brand node up
    to its first slash, without the white space before the slash, when the
    rest of the text is on one line. *)
Theorem brand_before_slash card t a sp rest :
  brandText card = Some t →
  trim t = a ++ sp ++ 47%N :: rest →
  47%N ∉ a →
  match last a with Some ch => isSpace ch = false | None => True end →
  Forall (λ ch, isSpace ch = true) sp →
  Forall (λ ch, isLineTerminator ch = false) rest →
  Found.brand (extract card) = Some a.
Proof.
  intros Hb Ht Ha Hl Hsp Hrest.
  simpl. rewrite Hb. simpl. rewrite Ht, cut_before_slash by done.
  by destruct a.
Qed.

Lemma brand_before_slash_witness :
  Found.brand (extract Sample.priced) = Some [65; 99; 109; 101]%N.
Proof.
  refine (brand_before_slash Sample.priced
    [65; 99; 109; 101; 32; 47; 32]%N [65; 99; 109; 101]%N [32]%N [] _ _ _ _ _
    _).
  - reflexivity.
  - reflexivity.
  - set_solver.
  - reflexivity.
  - by repeat constructor.
  - constructor.
Defined.

(** A brand text without a slash is kept whole, trimmed. *)
Theorem brand_without_slash card t :
  brandText card = Some t →
  47%N ∉ t →
  Found.brand (extract card) = Some (trim t).
Proof.
  intros Hb Ht. simpl. rewrite Hb. simpl.
  rewrite cut_without_slash; [done|].
  pose proof (trim_Forall (λ ch, ch ≠ 47%N) t) as Hsub.
  rewrite !Forall_forall in Hsub. intros Hin.
  apply (Hsub ltac:(by intros ? ? ->) 47%N Hin eq_refl).
Qed.

Lemma brand_without_slash_witness :
  Found.brand (extract
    {| data_nm_id := None; href := None; nameText := None;
       brandText := Some [32; 65; 99; 109; 101; 10]%N; imgSrc := None;
       walletPrice := None; finalPrice := None; anyPrice := None |})
  = Some [65; 99; 109; 101]%N.
Proof.
  refine (brand_without_slash _ [32; 65; 99; 109; 101; 10]%N _ _).
  - reflexivity.
  - set_solver.
Defined.

(** ** What a search returns, card by card *)

Lemma backfill_fields m p :
  Found.url (backfill m p) = Found.url p
  ∧ Found.image (backfill m p) = Found.image p
  ∧ Found.name (backfill m p) = Found.name p.
Proof.
  unfold backfill. destruct (m !! _); [|done]. by destruct (_ && _).
Qed.

(** On a page that shows cards, [search] returns one product per card
    kept by [slice(0, limit)], in the order of the page, with the id, link
    and image of its card: the first [limit] cards, all of them when there
    are fewer, and for a limit below 0 all but the last [-limit]. *)
Theorem search_cards w query options c page :
  ready w c →
  goto w (search_url query options) = NavOk page →
  cardAppears page = true →
  let limit := default 20 (limit options) in
  let n := Z.of_nat (length (cards page)) in
  ∃ ps c',
    search w query options c = (Return ps, c')
    ∧ Z.of_nat (length ps)
      = (if limit <? 0 then Z.max (n + limit) 0 else Z.min limit n)
    ∧ ∀ i item, ps !! i = Some item →
        ∃ card, cards page !! i = Some card
                ∧ Found.id item = data_nm_id card
                ∧ Found.url item = href card
                ∧ Found.image item = imgSrc card.
Proof.
  intros Hr Hg Hc limit n.
  destruct (search_shown _ _ _ _ _ Hr Hg Hc) as [ev Hs]. fold limit in Hs.
  eexists _, _. split; [exact Hs|].
  assert (Hlen : Z.of_nat (length (slice0 (cards page) limit))
                 = if limit <? 0 then Z.max (n + limit) 0 else Z.min limit n).
  { unfold slice0. fold n. rewrite length_take.
    destruct (Z.ltb_spec limit 0); lia. }
  assert (Hcard : ∀ i card, slice0 (cards page) limit !! i = Some card →
                            cards page !! i = Some card).
  { intros i card. unfold slice0. intros H.
    by apply lookup_take_Some in H as [H _]. }
  simpl. destruct (listed_prices _ _ _) as [ds|].
  - split; [by rewrite !length_fmap|]. intros i item Hi.
    rewrite !list_lookup_fmap in Hi.
    destruct (slice0 (cards page) limit !! i) as [card|] eqn:Hci; [|done].
    injection Hi as <-. exists card. split; [by apply Hcard|].
    rewrite backfill_id.
    by destruct (backfill_fields (build_priceMap ds) (extract card))
      as (-> & -> & _).
  - split; [by rewrite length_fmap|]. intros i item Hi.
    rewrite list_lookup_fmap in Hi.
    destruct (slice0 (cards page) limit !! i) as [card|] eqn:Hci; [|done].
    injection Hi as <-. exists card. by split; [apply Hcard|].
Qed.

Lemma search_cards_witness :
  ∃ ps c',
    search Sample.world "kettle"
      {| sort := None; page := None; priceMin := None; priceMax := None;
         limit := Some (-1) |} constructor = (Return ps, c')
    ∧ Z.of_nat (length ps) = 1.
Proof.
  destruct (search_cards Sample.world "kettle"
              {| sort := None; page := None; priceMin := None;
                 priceMax := None; limit := Some (-1) |} constructor
              (Sample.results true)) as (ps & c' & H & Hl & _);
    try reflexivity.
  - right; split; reflexivity.
  - by exists ps, c'.
Defined.

(** ** Requests that are not tool calls *)

Lemma handle_untouched w request c :
  Http.method request ≠ "tools/call" →
  (Http.handleJsonRpcRequest w request c).2 = c.
Proof.
  intros Hm. unfold Http.handleJsonRpcRequest, try_catch.
  destruct (String.eqb (Http.method request) "initialize"); [done|].
  destruct (String.eqb (Http.method request) "tools/list"); [done|].
  destruct (String.eqb_spec (Http.method request) "tools/call"); [done|].
  by destruct (String.eqb (Http.method request) "notifications/initialized").
Qed.

Lemma handle_all_untouched env i requests responses c :
  Forall (λ r, Http.method r ≠ "tools/call") requests →
  (Http.handle_all env i requests responses c).2 = c.
Proof.
  intros H. revert i responses.
  induction H as [|r rest Hr _ IH]; intros i responses; simpl; [done|].
  pose proof (handle_untouched (Http.world_at env i) r c Hr) as Hu.
  destruct (Http.handleJsonRpcRequest (Http.world_at env i) r c)
    as [[[resp|]|e] c1]; simpl in Hu; subst c1; apply IH.
Qed.

(** A POST without a [tools/call] request leaves the client as it is: the
    handshake and the tool listing never start the browser. *)
Theorem post_without_calls env sessionId body srv :
  Forall (λ r, Http.method r ≠ "tools/call") (posted_requests body) →
  Http.wbClient (Http.post_mcp env sessionId body srv).2 = Http.wbClient srv.
Proof.
  intros H. unfold Http.post_mcp. fold (posted_requests body).
  pose proof (handle_all_untouched env 0 _ [] (Http.wbClient srv) H) as Hu.
  destruct (Http.handle_all env 0 _ [] (Http.wbClient srv)) as [rs c1].
  simpl in Hu. subst c1. by destruct rs as [|r [|r' rs]].
Qed.

Lemma post_without_calls_witness :
  Http.wbClient
    (Http.post_mcp
       {| Http.world_at := λ _, Sample.world;
          Http.random1 := "0.4fzyo82mvyr"; Http.random2 := "0.k2j9x0q1abc";
          Http.now := 1700000000000 |}
       None
       (Http.Batch
          [ {| Http.method := "initialize"; Http.params := None;
               Http.id := Some (Http.IdNum 1) |};
            {| Http.method := "tools/list"; Http.params := None;
               Http.id := Some (Http.IdNum 2) |} ])
       {| Http.wbClient := constructor; Http.sessions := ∅ |}).2
  = constructor.
Proof.
  refine (post_without_calls _ None (Http.Batch _) _ _).
  repeat constructor; discriminate.
Defined.
